(** * The download / transcribe / summarize pipeline

    A shallow embedding of [src/downloader.py], [src/transcriber.py] and
    [src/summarizer.py].  The three stages are sequential loops over the
    files of four directories; they are embedded as programs of a small
    state-and-exception monad over a typed model of these directories,
    with a trace of the observable effects (collaborator calls, successful
    writes, warnings).  The third-party collaborators (yt-dlp, the speech
    model, the summarization models) are parameters of the development. *)

From Stdlib Require Import QArith Ascii.
From stdpp Require Import base option list gmap strings sorting.

Set Warnings "-register-all,-abstract-large-number,-clear-no-such-hyp".

Local Open Scope string_scope.
Local Open Scope list_scope.
Local Open Scope nat_scope.

(** String concatenation, apart from the [++] of lists. *)
Infix "+:+" := String.append (at level 60, right associativity).

(** ** Python values *)

(** A Python [str] is a sequence of code points. *)
Definition codepoint := N.
Definition text := list codepoint.

Definition text_of_string (s : string) : text :=
  map N_of_ascii (String.list_ascii_of_string s).

(** [str.isspace] on one code point (CPython's [_PyUnicode_IsWhitespace]). *)
Definition is_space (c : codepoint) : bool :=
  ((9 <=? c) && (c <=? 13) || (28 <=? c) && (c <=? 32)
   || (c =? 133) || (c =? 160) || (c =? 5760)
   || (8192 <=? c) && (c <=? 8202)
   || (c =? 8232) || (c =? 8233) || (c =? 8239) || (c =? 8287)
   || (c =? 12288))%N.

Fixpoint lstrip (t : text) : text :=
  match t with
  | c :: t' => if is_space c then lstrip t' else t
  | [] => []
  end.

Definition rstrip (t : text) : text := reverse (lstrip (reverse t)).

(** [s.strip()] *)
Definition strip (t : text) : text := rstrip (lstrip t).

(** [sep.join(l)] *)
Fixpoint join (sep : text) (l : list text) : text :=
  match l with
  | [] => []
  | [x] => x
  | x :: l' => x ++ sep ++ join sep l'
  end.

Definition space : text := [32%N].

(** [t[i:j]] for [0 <= i <= j]: a slice is cut short at the end of [t]. *)
Definition slice (t : text) (i j : nat) : text := take (j - i) (drop i t).

(** [range(start, stop, step)] for a positive step, unrolled at most
    [fuel] times; [range_] gives it enough fuel. *)
Fixpoint range_from (fuel start stop step : nat) : list nat :=
  match fuel with
  | O => []
  | S fuel' =>
      if start <? stop
      then start :: range_from fuel' (start + step) stop step
      else []
  end.

Definition range_ (start stop step : nat) : list nat :=
  range_from (stop - start) start stop step.

(** JSON values, as [json.load] returns them and [json.dump] takes them.
    An object is a Python [dict]: keys in insertion order. *)
Inductive json :=
| JNull
| JBool (b : bool)
| JNum (q : Q)
| JStr (s : text)
| JArr (l : list json)
| JObj (d : list (string * json)).

Definition dict := list (string * json).

(** [d.get(k)] *)
Fixpoint dict_get (k : string) (d : dict) : option json :=
  match d with
  | [] => None
  | (k', v) :: d' => if String.eqb k k' then Some v else dict_get k d'
  end.

(** [d[k] = v]: an existing key keeps its place, a new key goes last. *)
Fixpoint dict_set (k : string) (v : json) (d : dict) : dict :=
  match d with
  | [] => [(k, v)]
  | (k', v') :: d' =>
      if String.eqb k k' then (k', v) :: d' else (k', v') :: dict_set k v d'
  end.

(** ** File names *)

(** [fnmatch] on one path component, for patterns made of literal
    characters, [*] and [?] (the patterns of this program; bracket classes
    are not modelled, so an item id is taken not to contain a bracket). *)
Fixpoint fnmatch (pat name : string) : bool :=
  match pat with
  | EmptyString => match name with EmptyString => true | _ => false end
  | String c pat' =>
      if Ascii.eqb c "*"
      then (fix star (n : string) : bool :=
              fnmatch pat' n
              || match n with
                 | EmptyString => false
                 | String _ n' => star n'
                 end) name
      else match name with
           | EmptyString => false
           | String d n' =>
               (Ascii.eqb c "?" || Ascii.eqb c d) && fnmatch pat' n'
           end
  end.

(** [name.rfind(c)]: the index of the last occurrence. *)
Fixpoint rfind (c : ascii) (name : string) : option nat :=
  match name with
  | EmptyString => None
  | String d name' =>
      match rfind c name' with
      | Some i => Some (S i)
      | None => if Ascii.eqb c d then Some 0 else None
      end
  end.

(** [PurePath.stem]: the name without its last suffix; a leading or a
    trailing dot starts no suffix. *)
Definition stem (name : string) : string :=
  match rfind "." name with
  | Some i =>
      if (0 <? i) && (i <? String.length name - 1)
      then String.substring 0 i name
      else name
  | None => name
  end.

(** [sorted] on paths of one directory: by file name. *)
Definition sorted (l : list string) : list string := merge_sort String.le l.

(** ** The data directories *)

(** A file, by what its readers get from it: text (what [f.read()]
    returns in text mode), a JSON document (what [json.load] returns), or
    bytes that are neither.  The pipeline reads text only from the files
    it writes as text and JSON only from those it writes as JSON. *)
Inductive file :=
| FText (t : text)
| FJson (j : json)
| FBytes (b : list N).

(** [data/audio], [data/transcripts], [data/summaries], [data/metadata] *)
Inductive dir := AUDIO_DIR | TRANS_DIR | SUMM_DIR | META_DIR.

Record fs := Fs {
  audio : gmap string file;
  transcripts : gmap string file;
  summaries : gmap string file;
  metadata : gmap string file
}.

Definition files (d : dir) (s : fs) : gmap string file :=
  match d with
  | AUDIO_DIR => audio s
  | TRANS_DIR => transcripts s
  | SUMM_DIR => summaries s
  | META_DIR => metadata s
  end.

Definition set_files (d : dir) (m : gmap string file) (s : fs) : fs :=
  match d with
  | AUDIO_DIR => Fs m (transcripts s) (summaries s) (metadata s)
  | TRANS_DIR => Fs (audio s) m (summaries s) (metadata s)
  | SUMM_DIR => Fs (audio s) (transcripts s) m (metadata s)
  | META_DIR => Fs (audio s) (transcripts s) (summaries s) m
  end.

Definition dir_name (d : dir) : string :=
  match d with
  | AUDIO_DIR => "audio"
  | TRANS_DIR => "transcripts"
  | SUMM_DIR => "summaries"
  | META_DIR => "metadata"
  end.

(** The names of a directory in the order the system lists them. *)
Definition listdir (m : gmap string file) : list string :=
  (map_to_list m).*1.

(** [DIR.glob(pat)] *)
Definition glob (pat : string) (m : gmap string file) : list string :=
  filter (fun name => fnmatch pat name = true) (listdir m).

(** ** Effects *)

Inductive exn :=
| OSError
| DecodeError
| TypeError
| CollaboratorError (msg : string).

(** What a run does that can be seen from outside: calls of the
    collaborators, files written, warnings printed. *)
Inductive event :=
| Retrieved (url : json)
| Transcribed (name : string)
| SummarizedChunk (chunk : text)
| RankedSentences (t : text)
| Wrote (d : dir) (name : string)
| Warned (name : string) (e : exn)
| DownloadFailed (url : json) (e : exn)
| FallingBack (e : exn).

Inductive result (A : Type) :=
| Ok (a : A)
| Raise (e : exn).
Arguments Ok {A} a.
Arguments Raise {A} e.

(** A program takes the directories to a result (a value or a raised
    exception), the directories it leaves, and its trace. *)
Definition M (A : Type) : Type := fs -> result A * fs * list event.

Definition ret {A} (a : A) : M A := fun s => (Ok a, s, []).

Definition bind {A B} (m : M A) (f : A -> M B) : M B :=
  fun s =>
    match m s with
    | (Ok a, s1, t1) => let '(r, s2, t2) := f a s1 in (r, s2, t1 ++ t2)
    | (Raise e, s1, t1) => (Raise e, s1, t1)
    end.

Definition raise {A} (e : exn) : M A := fun s => (Raise e, s, []).

(** [try: body  except Exception as e: handler] *)
Definition try_except {A} (body : M A) (handler : exn -> M A) : M A :=
  fun s =>
    match body s with
    | (Ok a, s1, t1) => (Ok a, s1, t1)
    | (Raise e, s1, t1) =>
        let '(r, s2, t2) := handler e s1 in (r, s2, t1 ++ t2)
    end.

Definition emit (ev : event) : M unit := fun s => (Ok tt, s, [ev]).

Definition lift {A} (r : result A) : M A := fun s => (r, s, []).

Declare Scope prog_scope.
Delimit Scope prog_scope with prog.
Notation "'let*' x := m 'in' k" := (bind m (fun x => k))
  (at level 10, x pattern, m at level 100, k at level 200) : prog_scope.
Notation "m >> k" := (bind m (fun _ => k))
  (at level 100, k at level 200, right associativity) : prog_scope.
Local Open Scope prog_scope.

(** [for x in l: body x] *)
Fixpoint for_each {A} (l : list A) (body : A -> M unit) : M unit :=
  match l with
  | [] => ret tt
  | x :: l' => body x >> for_each l' body
  end.

Definition fs_of {A} (o : result A * fs * list event) : fs := o.1.2.
Definition trace_of {A} (o : result A * fs * list event) : list event := o.2.
Definition result_of {A} (o : result A * fs * list event) : result A := o.1.1.

(** [for x in l: out.append(body x)] *)
Fixpoint map_each {A B} (l : list A) (body : A -> M B) : M (list B) :=
  match l with
  | [] => ret []
  | x :: l' =>
      let* y := body x in
      let* ys := map_each l' body in
      ret (y :: ys)
  end.

(** A loop that carries an accumulator. *)
Fixpoint fold_each {A B} (l : list A) (acc : B) (body : B -> A -> M B)
  : M B :=
  match l with
  | [] => ret acc
  | x :: l' => let* acc' := body acc x in fold_each l' acc' body
  end.

(** ** The stages *)

(** What the speech model yields for one segment. *)
Record segment := Segment { seg_start : Q; seg_end : Q; seg_text : text }.

(** A loaded speech model: from the path handed to it and the file found
    there to the segments, or an exception. *)
Definition whisper := string -> option file -> result (list segment).

(** A loaded summarization pipeline: the [summary_text] of the first
    answer for one chunk, or an exception. *)
Definition summarizer_t := text -> result text.

(** An item descriptor of the media downloader ([entry.get] of the four
    fields read by the Fetcher). *)
Record entry := Entry {
  e_id : string;
  e_title : json;
  e_webpage_url : json;
  e_duration : json
}.

(** The answer of [extract_info]: read as an item itself, and its
    ["entries"] when it has that key. *)
Record info := Info {
  i_self : entry;
  i_entries : option (list (option entry))
}.

Section Pipeline.

(** [BASE_DIR], as a string. *)
Variable BASE_DIR : string.

(** Whether a file of a directory can be written; it is the same
    through a run and from one run to the next. *)
Variable writable : dir -> string -> bool.

(** [str(DIR / name)] *)
Definition path_str (d : dir) (name : string) : string :=
  BASE_DIR +:+ "/data/" +:+ dir_name d +:+ "/" +:+ name.

(** [(DIR / name).exists()] *)
Definition exists_ (d : dir) (name : string) : M bool :=
  fun s => (Ok (bool_decide (is_Some (files d s !! name))), s, []).

(** [with open(DIR / name, "w") as f: f.write(..)] or [json.dump(.., f)]:
    the file takes the new content as a whole, or the write raises and
    leaves the directory as it was. *)
Definition write_file (d : dir) (name : string) (f : file) : M unit :=
  fun s =>
    if writable d name
    then (Ok tt, set_files d (<[name := f]> (files d s)) s, [Wrote d name])
    else (Raise OSError, s, []).

(** [with open(DIR / name, "r") as f: f.read()] *)
Definition read_text (d : dir) (name : string) : M text :=
  fun s =>
    match files d s !! name with
    | Some (FText t) => (Ok t, s, [])
    | Some _ => (Raise DecodeError, s, [])
    | None => (Raise OSError, s, [])
    end.

(** [with open(DIR / name, "r") as f: json.load(f)] *)
Definition load_json (d : dir) (name : string) : M json :=
  fun s =>
    match files d s !! name with
    | Some (FJson j) => (Ok j, s, [])
    | Some _ => (Raise DecodeError, s, [])
    | None => (Raise OSError, s, [])
    end.

(** [meta[k] = v] on a loaded document: only an object takes a string
    key. *)
Definition setitem (meta : json) (k : string) (v : json) : M json :=
  match meta with
  | JObj d => ret (JObj (dict_set k v d))
  | _ => raise TypeError
  end.

(** The metadata update shared by the Transcriber and the Summarizer:
    read the record if there is one, set one field, write it back. *)
Definition update_metadata (video_id field : string) (path : string)
  : M unit :=
  let meta_file := video_id +:+ ".json" in
  let* has_meta := exists_ META_DIR meta_file in
  if has_meta then
    let* meta := load_json META_DIR meta_file in
    let* meta := setitem meta field (JStr (text_of_string path)) in
    write_file META_DIR meta_file (FJson meta)
  else ret tt.

(** *** transcriber.py *)

Variable WhisperModel : result whisper.

Definition segment_json (seg : segment) : json :=
  JObj [("start", JNum (seg_start seg));
        ("end", JNum (seg_end seg));
        ("text", JStr (strip (seg_text seg)))].

Definition transcribe_audio (audio_name : string) (model : whisper)
  : M (text * json) :=
  let* segments :=
    (fun s => (model (path_str AUDIO_DIR audio_name) (audio s !! audio_name),
               s, [Transcribed audio_name])) in
  let segment_list := map segment_json segments in
  let full_text := map (fun seg => strip (seg_text seg)) segments in
  ret (join space full_text, JArr segment_list).

(** The body of the loop of [main] for one audio file. *)
Definition transcribe_item (model : whisper) (audio_name : string)
  : M unit :=
  let video_id := stem audio_name in
  let transcript_path := video_id +:+ ".txt" in
  let transcript_json := video_id +:+ ".json" in
  let* done := exists_ TRANS_DIR transcript_path in
  if done then ret tt
  else
    try_except
      (let* (txt, segments) := transcribe_audio audio_name model in
       write_file TRANS_DIR transcript_path (FText txt) >>
       write_file TRANS_DIR transcript_json (FJson segments) >>
       update_metadata video_id "transcript_path"
         (path_str TRANS_DIR transcript_path))
      (fun e => emit (Warned audio_name e)).

Definition audio_files (s : fs) : list string :=
  sorted (glob "*.mp3" (audio s)).

Definition transcriber_main : M unit :=
  let* model := lift WhisperModel in
  let* l := (fun s => (Ok (audio_files s), s, [])) in
  for_each l (transcribe_item model).

(** *** summarizer.py *)

(** [pipeline("summarization", ...)]: the loaded summarizer, or the
    exception of its initialization. *)
Variable pipeline : result summarizer_t.

(** The sentence ranker: the text and the sentence count to the chosen
    sentences. *)
Variable lexrank : text -> nat -> result (list text).

Definition max_chunk : nat := 5000.

Definition chunks_of (txt : text) : list text :=
  map (fun i => slice txt i (i + max_chunk))
      (range_ 0 (length txt) max_chunk).

(** One call of the summarizer; [None] is Python's [None], which is not
    callable. *)
Definition call_summarizer (summarizer : option summarizer_t)
  (chunk : text) : M text :=
  match summarizer with
  | Some f => emit (SummarizedChunk chunk) >> lift (f chunk)
  | None => raise TypeError
  end.

Definition abstractive_summary (txt : text)
  (summarizer : option summarizer_t) : M text :=
  let chunks := chunks_of txt in
  let* summaries :=
    map_each chunks (fun chunk =>
      let* summary := call_summarizer summarizer chunk in
      ret (strip summary)) in
  ret (join space summaries).

Definition extractive_summary (txt : text) (sentence_count : nat)
  : M text :=
  let* summary :=
    (emit (RankedSentences txt) >> lift (lexrank txt sentence_count)) in
  ret (join space summary).

(** The body of the loop of [main] for one transcript file. *)
Definition summarize_item (use_extractive : bool)
  (summarizer : option summarizer_t) (tfile : string) : M unit :=
  let video_id := stem tfile in
  let output_file := video_id +:+ "_summary.txt" in
  let* done := exists_ SUMM_DIR output_file in
  if done then ret tt
  else
    try_except
      (let* raw := read_text TRANS_DIR tfile in
       let txt := strip raw in
       if length txt <? 100 then ret tt
       else
         let* summary_text :=
           (if use_extractive
            then extractive_summary txt 5
            else abstractive_summary txt summarizer) in
         write_file SUMM_DIR output_file (FText summary_text) >>
         update_metadata video_id "summary_path"
           (path_str SUMM_DIR output_file))
      (fun e => emit (Warned tfile e)).

Definition transcript_files (s : fs) : list string :=
  sorted (glob "*.txt" (transcripts s)).

(** The strategy of a run: [use_extractive] and [summarizer] as [main]
    sets them before its loop. *)
Definition choose_strategy : M (bool * option summarizer_t) :=
  try_except
    (let* summarizer := lift pipeline in ret (false, Some summarizer))
    (fun e => emit (FallingBack e) >> ret (true, None)).

Definition summarizer_main : M unit :=
  let* (use_extractive, summarizer) := choose_strategy in
  let* l := (fun s => (Ok (transcript_files s), s, [])) in
  for_each l (summarize_item use_extractive summarizer).

(** *** downloader.py *)

(** [ydl.extract_info(url, download=False)] *)
Variable extract_info : string -> result info.

(** [ydl.download([webpage_url])]: what it leaves in the audio
    directory, and whether it raised. *)
Variable ydl_download :
  json -> gmap string file -> result unit * gmap string file.

Definition retrieve (webpage_url : json) : M unit :=
  fun s =>
    let '(r, a) := ydl_download webpage_url (audio s) in
    (r, set_files AUDIO_DIR a s, [Retrieved webpage_url]).

(** The audio file of an item: the expected name, else the first name
    the glob finds, else [None]. *)
Definition locate_audio (video_id : string) : M (option string) :=
  let mp3_path := video_id +:+ ".mp3" in
  let* found := exists_ AUDIO_DIR mp3_path in
  if found then ret (Some mp3_path)
  else
    let* matches :=
      (fun s => (Ok (glob (video_id +:+ ".*") (audio s)), s, [])) in
    ret (head matches).

(** The body of the loop of [download] for one entry. *)
Definition download_item (results : list dict) (entry : option entry)
  : M (list dict) :=
  match entry with
  | None => ret results
  | Some entry =>
      let video_id := e_id entry in
      let title := e_title entry in
      let webpage_url := e_webpage_url entry in
      let duration := e_duration entry in
      let* downloaded :=
        try_except
          (retrieve webpage_url >> ret true)
          (fun e => emit (DownloadFailed webpage_url e) >> ret false) in
      if downloaded then
        let* mp3_path := locate_audio video_id in
        let meta :=
          [("video_id", JStr (text_of_string video_id));
           ("title", title);
           ("webpage_url", webpage_url);
           ("duration", duration);
           ("audio_path",
             match mp3_path with
             | Some name => JStr (text_of_string (path_str AUDIO_DIR name))
             | None => JNull
             end)] in
        let meta_file := video_id +:+ ".json" in
        write_file META_DIR meta_file (FJson (JObj meta)) >>
        ret (results ++ [meta])
      else ret results
  end.

Definition download (url : string) : M (list dict) :=
  let* info := lift (extract_info url) in
  let entries :=
    match i_entries info with
    | Some (e :: l) => e :: l
    | _ => [Some (i_self info)]
    end in
  fold_each entries [] download_item.

End Pipeline.

(** ** Outcomes of the loop bodies

    The ways one pass of a loop body can end, as relations between the
    directories before and the result, directories and trace after.  They
    are shown below to describe the programs above. *)

Section Outcomes.

Variable BASE_DIR : string.
Variable writable : dir -> string -> bool.

(** The metadata update of one item. *)
Inductive update_outcome (video_id field path : string) (s : fs)
  : result unit * fs * list event -> Prop :=
| upd_absent :
    metadata s !! (video_id +:+ ".json") = None ->
    update_outcome video_id field path s (Ok tt, s, [])
| upd_undecodable f :
    metadata s !! (video_id +:+ ".json") = Some f ->
    (forall j, f <> FJson j) ->
    update_outcome video_id field path s (Raise DecodeError, s, [])
| upd_not_object j :
    metadata s !! (video_id +:+ ".json") = Some (FJson j) ->
    (forall d, j <> JObj d) ->
    update_outcome video_id field path s (Raise TypeError, s, [])
| upd_unwritable d :
    metadata s !! (video_id +:+ ".json") = Some (FJson (JObj d)) ->
    writable META_DIR (video_id +:+ ".json") = false ->
    update_outcome video_id field path s (Raise OSError, s, [])
| upd_written d :
    metadata s !! (video_id +:+ ".json") = Some (FJson (JObj d)) ->
    writable META_DIR (video_id +:+ ".json") = true ->
    update_outcome video_id field path s
      (Ok tt,
       set_files META_DIR
         (<[video_id +:+ ".json" :=
              FJson (JObj (dict_set field (JStr (text_of_string path)) d))]>
            (metadata s)) s,
       [Wrote META_DIR (video_id +:+ ".json")]).

(** A warning for what the [try] caught, if anything. *)
Definition warning (name : string) (r : result unit) : list event :=
  match r with
  | Ok _ => []
  | Raise e => [Warned name e]
  end.

Definition full_text (segments : list segment) : text :=
  join space (map (fun seg => strip (seg_text seg)) segments).

(** One audio file in the Transcriber. *)
Inductive transcribe_outcome (model : whisper) (name : string) (s : fs)
  : result unit * fs * list event -> Prop :=
| tr_skip :
    is_Some (transcripts s !! (stem name +:+ ".txt")) ->
    transcribe_outcome model name s (Ok tt, s, [])
| tr_model_raises e :
    transcripts s !! (stem name +:+ ".txt") = None ->
    model (path_str BASE_DIR AUDIO_DIR name) (audio s !! name) = Raise e ->
    transcribe_outcome model name s
      (Ok tt, s, [Transcribed name; Warned name e])
| tr_text_unwritable segments :
    transcripts s !! (stem name +:+ ".txt") = None ->
    model (path_str BASE_DIR AUDIO_DIR name) (audio s !! name)
      = Ok segments ->
    writable TRANS_DIR (stem name +:+ ".txt") = false ->
    transcribe_outcome model name s
      (Ok tt, s, [Transcribed name; Warned name OSError])
| tr_json_unwritable segments :
    transcripts s !! (stem name +:+ ".txt") = None ->
    model (path_str BASE_DIR AUDIO_DIR name) (audio s !! name)
      = Ok segments ->
    writable TRANS_DIR (stem name +:+ ".txt") = true ->
    writable TRANS_DIR (stem name +:+ ".json") = false ->
    transcribe_outcome model name s
      (Ok tt,
       set_files TRANS_DIR
         (<[stem name +:+ ".txt" := FText (full_text segments)]>
            (transcripts s)) s,
       [Transcribed name; Wrote TRANS_DIR (stem name +:+ ".txt");
        Warned name OSError])
| tr_written segments r s' t :
    transcripts s !! (stem name +:+ ".txt") = None ->
    model (path_str BASE_DIR AUDIO_DIR name) (audio s !! name)
      = Ok segments ->
    writable TRANS_DIR (stem name +:+ ".txt") = true ->
    writable TRANS_DIR (stem name +:+ ".json") = true ->
    update_outcome (stem name) "transcript_path"
      (path_str BASE_DIR TRANS_DIR (stem name +:+ ".txt"))
      (set_files TRANS_DIR
         (<[stem name +:+ ".json" := FJson (JArr (map segment_json segments))]>
            (<[stem name +:+ ".txt" := FText (full_text segments)]>
               (transcripts s))) s)
      (r, s', t) ->
    transcribe_outcome model name s
      (Ok tt, s',
       [Transcribed name; Wrote TRANS_DIR (stem name +:+ ".txt");
        Wrote TRANS_DIR (stem name +:+ ".json")] ++ t ++ warning name r).

(** An audio file the Transcriber leaves without output: its transcript
    is there already, or the attempt stops before the first write. *)
Definition no_transcript (model : whisper) (name : string) (s : fs)
  : Prop :=
  is_Some (transcripts s !! (stem name +:+ ".txt"))
  \/ (exists e, model (path_str BASE_DIR AUDIO_DIR name) (audio s !! name)
                = Raise e)
  \/ writable TRANS_DIR (stem name +:+ ".txt") = false.

(** The summary of one text by the strategy of the run. *)
Variable lexrank : text -> nat -> result (list text).

Definition summarize_text (use_extractive : bool)
  (summarizer : option summarizer_t) (txt : text) : M text :=
  if use_extractive
  then extractive_summary lexrank txt 5
  else abstractive_summary txt summarizer.

(** One transcript file in the Summarizer. *)
Inductive summarize_outcome (use_extractive : bool)
  (summarizer : option summarizer_t) (tfile : string) (s : fs)
  : result unit * fs * list event -> Prop :=
| su_skip :
    is_Some (summaries s !! (stem tfile +:+ "_summary.txt")) ->
    summarize_outcome use_extractive summarizer tfile s (Ok tt, s, [])
| su_missing :
    summaries s !! (stem tfile +:+ "_summary.txt") = None ->
    transcripts s !! tfile = None ->
    summarize_outcome use_extractive summarizer tfile s
      (Ok tt, s, [Warned tfile OSError])
| su_undecodable f :
    summaries s !! (stem tfile +:+ "_summary.txt") = None ->
    transcripts s !! tfile = Some f ->
    (forall raw, f <> FText raw) ->
    summarize_outcome use_extractive summarizer tfile s
      (Ok tt, s, [Warned tfile DecodeError])
| su_short raw :
    summaries s !! (stem tfile +:+ "_summary.txt") = None ->
    transcripts s !! tfile = Some (FText raw) ->
    length (strip raw) < 100 ->
    summarize_outcome use_extractive summarizer tfile s (Ok tt, s, [])
| su_strategy_raises raw e t :
    summaries s !! (stem tfile +:+ "_summary.txt") = None ->
    transcripts s !! tfile = Some (FText raw) ->
    100 <= length (strip raw) ->
    summarize_text use_extractive summarizer (strip raw) s
      = (Raise e, s, t) ->
    summarize_outcome use_extractive summarizer tfile s
      (Ok tt, s, t ++ [Warned tfile e])
| su_unwritable raw summary_text t :
    summaries s !! (stem tfile +:+ "_summary.txt") = None ->
    transcripts s !! tfile = Some (FText raw) ->
    100 <= length (strip raw) ->
    summarize_text use_extractive summarizer (strip raw) s
      = (Ok summary_text, s, t) ->
    writable SUMM_DIR (stem tfile +:+ "_summary.txt") = false ->
    summarize_outcome use_extractive summarizer tfile s
      (Ok tt, s, t ++ [Warned tfile OSError])
| su_written raw summary_text t r s' t' :
    summaries s !! (stem tfile +:+ "_summary.txt") = None ->
    transcripts s !! tfile = Some (FText raw) ->
    100 <= length (strip raw) ->
    summarize_text use_extractive summarizer (strip raw) s
      = (Ok summary_text, s, t) ->
    writable SUMM_DIR (stem tfile +:+ "_summary.txt") = true ->
    update_outcome (stem tfile) "summary_path"
      (path_str BASE_DIR SUMM_DIR (stem tfile +:+ "_summary.txt"))
      (set_files SUMM_DIR
         (<[stem tfile +:+ "_summary.txt" := FText summary_text]>
            (summaries s)) s)
      (r, s', t') ->
    summarize_outcome use_extractive summarizer tfile s
      (Ok tt, s',
       t ++ [Wrote SUMM_DIR (stem tfile +:+ "_summary.txt")] ++ t'
         ++ warning tfile r).

(** A transcript the Summarizer leaves without output: its summary is
    there already, the summary file cannot be written, or the transcript
    gives no summary (it is unreadable or too short, or the strategy
    raises). *)
Definition no_summary (use_extractive : bool)
  (summarizer : option summarizer_t) (tfile : string) (s : fs) : Prop :=
  is_Some (summaries s !! (stem tfile +:+ "_summary.txt"))
  \/ writable SUMM_DIR (stem tfile +:+ "_summary.txt") = false
  \/ forall raw,
       transcripts s !! tfile = Some (FText raw) ->
       100 <= length (strip raw) ->
       exists e,
         result_of (summarize_text use_extractive summarizer (strip raw) s)
         = Raise e.

End Outcomes.

(** An item id without pattern characters, as the ids of the media
    site are. *)
Fixpoint wildcard_free (s : string) : bool :=
  match s with
  | EmptyString => true
  | String c s' =>
      negb (Ascii.eqb c "*") && negb (Ascii.eqb c "?") && wildcard_free s'
  end.

(** The Metadata Record the Fetcher writes for an item. *)
Definition fetched_record (BASE_DIR : string) (entry : entry)
  (mp3_path : option string) : dict :=
  [("video_id", JStr (text_of_string (e_id entry)));
   ("title", e_title entry);
   ("webpage_url", e_webpage_url entry);
   ("duration", e_duration entry);
   ("audio_path",
     match mp3_path with
     | Some name => JStr (text_of_string (path_str BASE_DIR AUDIO_DIR name))
     | None => JNull
     end)].

(** A program that neither reads nor changes the directories. *)
Definition stateless {A} (m : M A) : Prop :=
  exists r t, forall s, m s = (r, s, t).

(** The events a run may show under one strategy: no call of the other
    strategy's collaborator, and no second choice of strategy. *)
Definition strategy_event (use_extractive : bool) (ev : event) : Prop :=
  match ev with
  | SummarizedChunk _ => use_extractive = false
  | RankedSentences _ => use_extractive = true
  | FallingBack _ => False
  | _ => True
  end.

(** What the Transcriber may emit for one audio file. *)
Definition transcriber_event (name : string) (ev : event) : Prop :=
  ev = Transcribed name
  \/ ev = Wrote TRANS_DIR (stem name +:+ ".txt")
  \/ ev = Wrote TRANS_DIR (stem name +:+ ".json")
  \/ ev = Wrote META_DIR (stem name +:+ ".json")
  \/ exists e, ev = Warned name e.

(** ** A concrete installation

    One item, [abc], with collaborators that answer it; used to run the
    stages on explicit directories. *)

Definition ex_base : string := "/srv/app".

Definition all_writable (d : dir) (name : string) : bool := true.

Definition fs_empty : fs := Fs ∅ ∅ ∅ ∅.

Definition ex_url : string := "https://video.example/watch?v=abc".

Definition ex_entry : entry :=
  Entry "abc" (JStr (text_of_string "A talk"))
        (JStr (text_of_string ex_url)) (JNum 12).

Definition ex_extract (url : string) : result info :=
  Ok (Info ex_entry None).

(** A retrieval that stores the audio as [abc.mp3]. *)
Definition ex_ydl_mp3 (url : json) (a : gmap string file)
  : result unit * gmap string file :=
  (Ok tt, <["abc.mp3" := FBytes [73%N; 68%N; 51%N]]> a).

(** A retrieval whose post-processing left another extension. *)
Definition ex_ydl_m4a (url : json) (a : gmap string file)
  : result unit * gmap string file :=
  (Ok tt, <["abc.m4a" := FBytes [0%N; 0%N; 0%N; 32%N]]> a).

Definition ex_segments : list segment :=
  [Segment 0 1.5 (text_of_string " hello ");
   Segment 1.5 3 (text_of_string "world ")].

Definition ex_model : whisper :=
  fun path f =>
    match f with
    | Some _ => Ok ex_segments
    | None => Raise OSError
    end.

(** A speech model that cannot decode the audio. *)
Definition ex_model_failing : whisper :=
  fun path f => Raise (CollaboratorError "cannot decode").

(** A summarizer that answers a chunk with its first three characters
    between spaces. *)
Definition ex_summarizer : summarizer_t :=
  fun chunk => Ok (space ++ take 3 chunk ++ space).

Definition ex_lexrank (txt : text) (n : nat) : result (list text) :=
  Ok [take n txt].

(** The directories after the item was fetched as [abc.mp3]. *)
Definition fs_fetched : fs :=
  fs_of (download ex_base all_writable ex_extract ex_ydl_mp3 ex_url fs_empty).

(** The directories after the item was fetched as [abc.m4a]. *)
Definition fs_fetched_m4a : fs :=
  fs_of (download ex_base all_writable ex_extract ex_ydl_m4a ex_url fs_empty).

(** A transcript text file without its segment file. *)
Definition fs_text_only : fs :=
  Fs (audio fs_fetched)
     (<["abc.txt" := FText (text_of_string "hello world")]> ∅)
     ∅ (metadata fs_fetched).

(** A transcript of 120 characters, and one of 12. *)
Definition long_text : text := repeat 120%N 120.

Definition fs_transcribed (raw : text) : fs :=
  Fs (audio fs_fetched) (<["abc.txt" := FText raw]> ∅) ∅
     (metadata fs_fetched).


Definition ex_init_error : exn := CollaboratorError "model unavailable".

(** ** The first reading of idempotence *)

(** The second of two runs in a row changes no file and does nothing that
    can be seen: every item is skipped. *)
Definition second_run_skips {A} (stage : M A) (s : fs) : Prop :=
  fs_of (stage (fs_of (stage s))) = fs_of (stage s)
  /\ trace_of (stage (fs_of (stage s))) = [].

Definition every_stage_skips : Prop :=
  forall BASE_DIR writable extract_info ydl_download WhisperModel pipeline
         lexrank url s,
    second_run_skips
      (download BASE_DIR writable extract_info ydl_download url) s
    /\ second_run_skips (transcriber_main BASE_DIR writable WhisperModel) s
    /\ second_run_skips
         (summarizer_main BASE_DIR writable pipeline lexrank) s.

(** ** The rest of the three files *)

(** The work list of [download]: the ["entries"] of the answer when
    there are some, else the answer itself. *)
Definition entries_of (i : info) : list (option entry) :=
  match i_entries i with
  | Some (e :: l) => e :: l
  | _ => [Some (i_self i)]
  end.

(** The path the Fetcher records for an item once its retrieval left the
    audio directory [a]. *)
Definition located (video_id : string) (a : gmap string file)
  : option string :=
  match a !! (video_id +:+ ".mp3") with
  | Some _ => Some (video_id +:+ ".mp3")
  | None => head (glob (video_id +:+ ".*") a)
  end.

(** The files a trace shows as written, in order. *)
Definition writes (t : list event) : list (dir * string) :=
  omap (fun ev => match ev with Wrote d n => Some (d, n) | _ => None end) t.

(** The keys of a record, in the order of the file. *)
Definition keys (d : dict) : list string := d.*1.

(** A text without white space at either end. *)
Definition trimmed (t : text) : Prop :=
  (forall c, head t = Some c -> is_space c = false)
  /\ (forall c, last t = Some c -> is_space c = false).


(** *** summarizer.py, [ensure_nltk_resources]

    The tokenizer data of the language toolkit is a set of resource
    paths; [nltk.data.find] raises [LookupError] for a path that is not
    there, and [nltk.download] is the collaborator that may add it. *)
Definition required : list string := ["punkt"; "punkt_tab"].

Section Nltk.

Variable nltk_download : string -> gset string -> gset string.

(** One round of the loop: the data afterwards and the downloads asked
  for so far. *)
Definition ensure_resource (st : gset string * list string)
(resource : string) : gset string * list string :=
if decide ("tokenizers/" +:+ resource ∈ st.1)
then st
else (nltk_download resource st.1, st.2 ++ [resource]).

Definition ensure_nltk_resources (installed : gset string)
: gset string * list string :=
foldl ensure_resource (installed, []) required.

End Nltk.

(** A download that installs what it is asked for and removes nothing. *)
Definition installs (nltk_download : string -> gset string -> gset string)
  : Prop :=
  forall resource data,
    data ⊆ nltk_download resource data
    /\ "tokenizers/" +:+ resource ∈ nltk_download resource data.

Definition ex_nltk_download (resource : string) (data : gset string)
  : gset string :=
  {["tokenizers/" +:+ resource]} ∪ data.

(** *** downloader.py, the report of [__main__]

    One line per returned record, from its [video_id], [title] and
    [audio_path]; a missing key raises [KeyError]. *)
Definition report_line (item : dict) : option (json * json * json) :=
  match dict_get "video_id" item, dict_get "title" item,
        dict_get "audio_path" item with
  | Some v, Some t, Some a => Some (v, t, a)
  | _, _, _ => None
  end.

(** A summarizer that fails on chunks shorter than 5000 characters. *)
Definition ex_summarizer_picky : summarizer_t :=
  fun chunk =>
    if length chunk <? 5000 then Raise (CollaboratorError "too short")
    else Ok (take 3 chunk).

(** A playlist of two items and a hole, where the second item cannot be
    retrieved. *)
Definition ex_entry2 : entry :=
  Entry "xyz" JNull (JStr (text_of_string "https://video.example/watch?v=xyz"))
        JNull.

Definition ex_extract_list (url : string) : result info :=
  Ok (Info ex_entry (Some [Some ex_entry; None; Some ex_entry2])).

Definition ex_ydl_partial (url : json) (a : gmap string file)
  : result unit * gmap string file :=
  match url with
  | JStr u =>
      if bool_decide (u = text_of_string ex_url)
      then (Ok tt, <["abc.mp3" := FBytes [73%N; 68%N; 51%N]]> a)
      else (Raise (CollaboratorError "unavailable"), a)
  | _ => (Raise TypeError, a)
  end.


(** * Properties *)

(** ** Running programs *)

Lemma bind_ok {A B} (m : M A) (f : A -> M B) s a s1 t1 :
  m s = (Ok a, s1, t1) ->
  bind m f s = (result_of (f a s1), fs_of (f a s1), t1 ++ trace_of (f a s1)).
Proof.
  intros Hm. unfold bind, result_of, fs_of, trace_of. rewrite Hm.
  by destruct (f a s1) as [[r s2] t2].
Qed.

Lemma bind_raise {A B} (m : M A) (f : A -> M B) s e s1 t1 :
  m s = (Raise e, s1, t1) -> bind m f s = (Raise e, s1, t1).
Proof. intros Hm. unfold bind. by rewrite Hm. Qed.

Lemma outcome_eta {A} (o : result A * fs * list event) :
  o = (result_of o, fs_of o, trace_of o).
Proof. by destruct o as [[r s] t]. Qed.

Ltac unfold_prog :=
  unfold transcribe_item, summarize_item, update_metadata, transcribe_audio,
    extractive_summary, setitem, exists_, write_file, read_text, load_json,
    try_except, bind, ret, raise, emit, lift, result_of, fs_of, trace_of.

(** ** Loops *)

Section Loops.

Context {A : Type} (body : A -> M unit).

(** A loop whose body cannot raise keeps an invariant of the
    directories, and its trace holds only what the body may emit. *)
Lemma for_each_inv (I : fs -> Prop) (T : event -> Prop) (l : list A) :
  (forall x s, x ∈ l -> I s ->
     result_of (body x s) = Ok tt /\ I (fs_of (body x s))
     /\ Forall T (trace_of (body x s))) ->
  forall s, I s ->
    result_of (for_each l body s) = Ok tt /\ I (fs_of (for_each l body s))
    /\ Forall T (trace_of (for_each l body s)).
Proof.
  induction l as [|x l IH]; intros Hbody s Hs.
  - by repeat split.
  - destruct (Hbody x s) as (Hr & HI & HT); [left | done |].
    cbn [for_each].
    rewrite (bind_ok _ _ s tt (fs_of (body x s)) (trace_of (body x s))).
    2:{ rewrite (outcome_eta (body x s)) at 1. by rewrite Hr. }
    destruct (IH (fun y s' Hy => Hbody y s' (list_elem_of_further _ _ _ Hy))
                _ HI) as (Hr' & HI' & HT').
    repeat split; [done | done |].
    apply Forall_app; by split.
Qed.


(** Running the loop a second time changes no file when each item,
    once visited, stays settled. *)
Lemma for_each_twice (l : list A) :
  (forall x s, result_of (body x s) = Ok tt) ->
  (forall x s, fs_of (body x (fs_of (body x s))) = fs_of (body x s)) ->
  (forall x y s, fs_of (body x s) = s ->
     fs_of (body x (fs_of (body y s))) = fs_of (body y s)) ->
  forall s, fs_of (for_each l body (fs_of (for_each l body s)))
            = fs_of (for_each l body s).
Proof.
  intros Hret Hself Hkeep.
  assert (Hcons : forall x l' s,
    fs_of (for_each (x :: l') body s)
    = fs_of (for_each l' body (fs_of (body x s)))).
  { intros x l' s. cbn [for_each].
    rewrite (bind_ok _ _ s tt (fs_of (body x s)) (trace_of (body x s))).
    - done.
    - rewrite (outcome_eta (body x s)) at 1. by rewrite Hret. }
  assert (Hkeeps : forall x l' s, fs_of (body x s) = s ->
    fs_of (body x (fs_of (for_each l' body s))) = fs_of (for_each l' body s)).
  { intros x l'. induction l' as [|y l' IH]; intros s Hx; [done |].
    rewrite Hcons. apply IH. by apply Hkeep. }
  assert (Hall : forall l' s,
    Forall (fun x => fs_of (body x (fs_of (for_each l' body s)))
                     = fs_of (for_each l' body s)) l').
  { induction l' as [|x l' IH]; intros s; [done |].
    constructor.
    - rewrite Hcons. apply Hkeeps, Hself.
    - rewrite Hcons. apply IH. }
  assert (Hfix : forall l' s,
    Forall (fun x => fs_of (body x s) = s) l' ->
    fs_of (for_each l' body s) = s).
  { induction l' as [|x l' IH]; intros s Hl; [done |].
    inversion Hl as [|? ? Hx Hl']; subst.
    rewrite Hcons, Hx. by apply IH. }
  intros s. apply Hfix, Hall.
Qed.

End Loops.

(** ** File names *)

Lemma list_ascii_app (a b : string) :
  String.list_ascii_of_string (a +:+ b)
  = String.list_ascii_of_string a ++ String.list_ascii_of_string b.
Proof. induction a as [|c a IH]; [done |]. simpl. by f_equal. Qed.

Lemma list_ascii_inj (a b : string) :
  String.list_ascii_of_string a = String.list_ascii_of_string b -> a = b.
Proof.
  intros H. rewrite <- (String.string_of_list_ascii_of_string a),
    <- (String.string_of_list_ascii_of_string b). by rewrite H.
Qed.

(** Two ids with the same file name are the same id. *)
Lemma append_inj_l (a b ext : string) : a +:+ ext = b +:+ ext -> a = b.
Proof.
  intros H. apply list_ascii_inj.
  apply (f_equal String.list_ascii_of_string) in H.
  rewrite !list_ascii_app in H. by apply app_inv_tail in H.
Qed.

(** A [.txt] name is never a [.json] name. *)
Lemma txt_not_json (a b : string) : a +:+ ".txt" <> b +:+ ".json".
Proof.
  intros H. apply (f_equal String.list_ascii_of_string) in H.
  rewrite !list_ascii_app in H.
  change (String.list_ascii_of_string ".txt")
    with (["."; "t"; "x"]%char ++ ["t"%char]) in H.
  change (String.list_ascii_of_string ".json")
    with (["."; "j"; "s"; "o"]%char ++ ["n"%char]) in H.
  rewrite !app_assoc in H.
  apply (f_equal (@last ascii)) in H.
  rewrite !last_snoc in H. discriminate.
Qed.

(** ** Chunking *)

Section Chunks.

Context {A : Type}.
Implicit Types t : list A.

Lemma range_from_concat t (n : nat) : 0 < n ->
  forall fuel start, length t - start <= fuel ->
    concat (map (fun i => take (i + n - i) (drop i t))
                (range_from fuel start (length t) n)) = drop start t.
Proof.
  intros Hn. induction fuel as [|fuel IH]; intros start Hf; simpl.
  - rewrite drop_ge; [done | lia].
  - destruct (Nat.ltb_spec start (length t)) as [Hlt|Hge]; simpl.
    + rewrite IH by lia.
      replace (start + n - start) with n by lia.
      rewrite <- drop_drop. apply take_drop.
    + rewrite drop_ge; [done | lia].
Qed.

Lemma range_from_length (n : nat) : 0 < n ->
  forall fuel start stop, stop - start <= fuel ->
    length (range_from fuel start stop n) = (stop - start + (n - 1)) / n.
Proof.
  intros Hn. induction fuel as [|fuel IH]; intros start stop Hf; simpl.
  - replace (stop - start) with 0 by lia. simpl.
    symmetry. apply Nat.div_small. lia.
  - destruct (Nat.ltb_spec start stop) as [Hlt|Hge]; simpl.
    + rewrite IH by lia.
      destruct (Nat.le_gt_cases n (stop - start)) as [Hbig|Hsmall].
      * replace (stop - start + (n - 1))
          with (stop - (start + n) + (n - 1) + 1 * n) by lia.
        rewrite Nat.div_add by lia. lia.
      * replace (stop - (start + n)) with 0 by lia. simpl.
        rewrite (Nat.div_small (n - 1) n) by lia.
        apply (Nat.div_unique _ n 1 (stop - start - 1)); lia.
    + replace (stop - start) with 0 by lia. simpl.
      symmetry. apply Nat.div_small. lia.
Qed.

End Chunks.

Lemma chunks_of_concat (txt : text) : concat (chunks_of txt) = txt.
Proof.
  unfold chunks_of, range_, slice.
  rewrite (range_from_concat txt max_chunk); [apply drop_0 | unfold max_chunk; lia | lia].
Qed.

Lemma chunks_of_length (txt : text) :
  length (chunks_of txt) = (length txt + (max_chunk - 1)) / max_chunk.
Proof.
  unfold chunks_of, range_. rewrite length_map.
  rewrite range_from_length; [| unfold max_chunk; lia | lia].
  by rewrite Nat.sub_0_r.
Qed.

(** C9. The chunks of a text, concatenated in order, are the text, and
    their number is the ceiling of its length over 5000. *)
Theorem chunks_lossless (txt : text) :
  concat (chunks_of txt) = txt /\
  length (chunks_of txt) = (length txt + 4999) / 5000 /\
  length txt <= 5000 * length (chunks_of txt) < length txt + 5000.
Proof.
  split; [apply chunks_of_concat |].
  rewrite chunks_of_length. change max_chunk with 5000.
  change (5000 - 1) with 4999.
  split; [done |].
  pose proof (Nat.div_mod_eq (length txt + 4999) 5000) as Hd.
  pose proof (Nat.mod_upper_bound (length txt + 4999) 5000) as Hm.
  lia.
Qed.

(** ** The abstractive path *)



(** ** Metadata records *)



(** ** Patterns *)



Lemma fnmatch_literal c pat d name :
  Ascii.eqb c "*" = false ->
  fnmatch (String c pat) (String d name)
  = (Ascii.eqb c "?" || Ascii.eqb c d) && fnmatch pat name.
Proof. intros H. cbn [fnmatch]. by rewrite H. Qed.


(** ** Names and their stems *)





(** A leading dot starts no suffix: the file [.mp3] has itself for
    stem. *)
Lemma stem_dotfile (ext : string) :
  rfind "." ext = Some 0 -> stem ext = ext.
Proof. intros H. unfold stem. by rewrite H. Qed.

(** ** Globs with one star *)

Lemma fnmatch_star_cons (pat name : string) :
  fnmatch (String "*" pat) name
  = fnmatch pat name
    || match name with
       | EmptyString => false
       | String _ name' => fnmatch (String "*" pat) name'
       end.
Proof. by destruct name. Qed.

Lemma fnmatch_star_split (pat name : string) :
  fnmatch (String "*" pat) name = true
  <-> exists pre suf, name = pre +:+ suf /\ fnmatch pat suf = true.
Proof.
  induction name as [|c name IH]; rewrite fnmatch_star_cons.
  - rewrite orb_false_r. split.
    + intros H. by exists "", "".
    + intros (pre & suf & Heq & H). destruct pre; [| done].
      change ("" +:+ suf) with suf in Heq. by subst suf.
  - rewrite orb_true_iff, IH. split.
    + intros [H|(pre & suf & -> & H)].
      * by exists "", (String c name).
      * by exists (String c pre), suf.
    + intros (pre & suf & Heq & H). destruct pre as [|d pre].
      * change ("" +:+ suf) with suf in Heq. subst suf. by left.
      * change (String d pre +:+ suf) with (String d (pre +:+ suf)) in Heq.
        injection Heq as -> ->. right. by exists pre, suf.
Qed.

Lemma fnmatch_exact (pat name : string) :
  wildcard_free pat = true -> fnmatch pat name = true <-> name = pat.
Proof.
  revert name. induction pat as [|c pat IH]; intros name Hfree.
  - by destruct name.
  - simpl in Hfree.
    apply andb_prop in Hfree as [Hc Hfree].
    apply andb_prop in Hc as [Hstar Hq].
    apply negb_true_iff in Hstar, Hq.
    destruct name as [|d name]; [simpl; by rewrite Hstar |].
    rewrite fnmatch_literal, Hq, orb_false_l, andb_true_iff, IH by done.
    rewrite Ascii.eqb_eq. split; [by intros [-> ->] | by intros [= -> ->]].
Qed.

(** The glob [*ext] finds the names that end in [ext]. *)
Lemma fnmatch_suffix (ext name : string) :
  wildcard_free ext = true ->
  fnmatch (String "*" ext) name = true <-> exists pre, name = pre +:+ ext.
Proof.
  intros Hfree. rewrite fnmatch_star_split. split.
  - intros (pre & suf & -> & H). apply fnmatch_exact in H as ->; [| done].
    by exists pre.
  - intros (pre & ->). exists pre, ext. split; [done |].
    by apply fnmatch_exact.
Qed.

Lemma glob_elem (pat : string) (m : gmap string file) (name : string) :
  name ∈ glob pat m <-> is_Some (m !! name) /\ fnmatch pat name = true.
Proof.
  unfold glob, listdir. rewrite list_elem_of_filter, list_elem_of_fmap. split.
  - intros [Hm [[k f] [-> Hin]]]. apply elem_of_map_to_list in Hin.
    split; [by eexists | done].
  - intros [[f Hf] Hm]. split; [done |]. exists (name, f).
    split; [done |]. by apply elem_of_map_to_list.
Qed.

Lemma glob_NoDup (pat : string) (m : gmap string file) : NoDup (glob pat m).
Proof. apply NoDup_filter, NoDup_fst_map_to_list. Qed.

Lemma sorted_elem (l : list string) (name : string) :
  name ∈ sorted l <-> name ∈ l.
Proof. unfold sorted. by rewrite merge_sort_Permutation. Qed.

Lemma sorted_NoDup (l : list string) : NoDup l -> NoDup (sorted l).
Proof. unfold sorted. by rewrite merge_sort_Permutation. Qed.

(** ** The metadata update *)

Lemma insert_keeps (m : gmap string file) (j k : string) (v : file) :
  is_Some (m !! k) -> is_Some (<[j:=v]> m !! k).
Proof. rewrite lookup_insert_is_Some. destruct (decide (j = k)); auto. Qed.

Arguments stem : simpl never.
Arguments text_of_string : simpl never.
Arguments path_str : simpl never.
Arguments String.append : simpl never.
Arguments strip : simpl never.
Arguments join : simpl never.
Arguments dict_set : simpl never.
Arguments segment_json : simpl never.

Lemma update_metadata_outcome writable video_id field path s :
  update_outcome writable video_id field path s
    (update_metadata writable video_id field path s).
Proof.
  destruct s as [a t su m]. unfold_prog. cbn.
  destruct (m !! (video_id +:+ ".json")) as [f|] eqn:Hm; cbn.
  2:{ by apply upd_absent. }
  rewrite ?Hm.
  destruct f as [x|j|b]; cbn.
  1,3: by eapply upd_undecodable.
  destruct j; cbn; try by eapply upd_not_object.
  destruct (writable META_DIR (video_id +:+ ".json")) eqn:Hw; cbn.
  - by apply upd_written.
  - by eapply upd_unwritable.
Qed.

(** ** The Transcriber *)

Arguments update_metadata : simpl never.

Lemma transcribe_item_outcome BASE_DIR writable model name s :
  transcribe_outcome BASE_DIR writable model name s
    (transcribe_item BASE_DIR writable model name s).
Proof.
  pose proof (update_metadata_outcome writable (stem name) "transcript_path"
    (path_str BASE_DIR TRANS_DIR (stem name +:+ ".txt"))) as Hupd.
  destruct s as [a t su m].
  unfold transcribe_item, transcribe_audio, exists_, write_file, try_except,
    bind, ret, raise, emit, lift.
  cbn.
  destruct (t !! (stem name +:+ ".txt")) as [f|] eqn:Ht; cbn.
  { apply tr_skip. cbn. by rewrite Ht. }
  destruct (model _ _) as [segments|e] eqn:Hmodel; cbn.
  2:{ by apply tr_model_raises. }
  destruct (writable TRANS_DIR (stem name +:+ ".txt")) eqn:Hw1; cbn.
  2:{ by eapply tr_text_unwritable. }
  destruct (writable TRANS_DIR (stem name +:+ ".json")) eqn:Hw2; cbn.
  2:{ by eapply tr_json_unwritable. }
  match goal with
  | |- context [update_metadata _ _ _ _ ?s2] => specialize (Hupd s2)
  end.
  destruct (update_metadata _ _ _ _ _) as [[r s'] tr].
  pose proof (tr_written BASE_DIR writable model name
                (Fs a t su m) segments r s' tr Ht Hmodel Hw1 Hw2 Hupd) as H.
  destruct r as [[]|e]; cbn in *; [by rewrite app_nil_r in H | done].
Qed.

Section UpdateProps.

Variable writable : dir -> string -> bool.
Variables video_id field path : string.

Lemma update_outcome_frame s r s' t :
  update_outcome writable video_id field path s (r, s', t) ->
  audio s' = audio s /\ transcripts s' = transcripts s
  /\ summaries s' = summaries s
  /\ (forall k, k <> video_id +:+ ".json" ->
        metadata s' !! k = metadata s !! k)
  /\ Forall (fun ev => ev = Wrote META_DIR (video_id +:+ ".json")) t.
Proof.
  destruct s as [a tr su m].
  inversion 1; subst; cbn; repeat split; auto.
  intros k Hk. by rewrite lookup_insert_ne.
Qed.

End UpdateProps.

Section TranscriberProps.

Variable BASE_DIR : string.
Variable writable : dir -> string -> bool.
Variable model : whisper.

Local Abbreviation item := (transcribe_item BASE_DIR writable model).

Lemma transcribe_item_skip name s :
  is_Some (transcripts s !! (stem name +:+ ".txt")) ->
  item name s = (Ok tt, s, []).
Proof.
  intros Hex. unfold transcribe_item.
  rewrite (bind_ok _ _ s true s []); [done |].
  unfold exists_. by rewrite bool_decide_eq_true_2.
Qed.

Lemma transcribe_item_returns name s : result_of (item name s) = Ok tt.
Proof. by destruct (transcribe_item_outcome BASE_DIR writable model name s). Qed.

Lemma transcribe_item_others name s :
  audio (fs_of (item name s)) = audio s
  /\ summaries (fs_of (item name s)) = summaries s.
Proof.
  destruct (transcribe_item_outcome BASE_DIR writable model name s)
    as [| | | |segs r s' t _ _ _ _ Hupd]; try done.
  apply update_outcome_frame in Hupd as (Ha & _ & Hs & _).
  destruct s; cbn in *. by rewrite Ha, Hs.
Qed.

Lemma transcribe_item_transcripts name s k :
  k <> stem name +:+ ".txt" -> k <> stem name +:+ ".json" ->
  transcripts (fs_of (item name s)) !! k = transcripts s !! k.
Proof.
  intros Htxt Hjson.
  destruct (transcribe_item_outcome BASE_DIR writable model name s)
    as [| | | |segs r s' t _ _ _ _ Hupd]; try done.
  - destruct s; cbn. by rewrite lookup_insert_ne.
  - apply update_outcome_frame in Hupd as (_ & Ht & _).
    destruct s; cbn in *. by rewrite Ht, !lookup_insert_ne.
Qed.

Lemma transcribe_item_metadata name s k :
  k <> stem name +:+ ".json" ->
  metadata (fs_of (item name s)) !! k = metadata s !! k.
Proof.
  intros Hjson.
  destruct (transcribe_item_outcome BASE_DIR writable model name s)
    as [| | | |segs r s' t _ _ _ _ Hupd]; try done.
  apply update_outcome_frame in Hupd as (_ & _ & _ & Hm & _).
  destruct s; cbn in *. by rewrite Hm.
Qed.

Lemma transcribe_item_keeps name s k :
  is_Some (transcripts s !! k) ->
  is_Some (transcripts (fs_of (item name s)) !! k).
Proof.
  intros Hk.
  destruct (transcribe_item_outcome BASE_DIR writable model name s)
    as [| | | |segs r s' t _ _ _ _ Hupd]; try done.
  - destruct s; cbn in *. by apply insert_keeps.
  - apply update_outcome_frame in Hupd as (_ & Ht & _).
    destruct s; cbn in *. rewrite Ht. by do 2 apply insert_keeps.
Qed.

Lemma transcribe_item_trace name s :
  Forall (transcriber_event name) (trace_of (item name s)).
Proof.
  destruct (transcribe_item_outcome BASE_DIR writable model name s)
    as [| | | |segs r s' t _ _ _ _ Hupd]; cbn.
  1-4: unfold transcriber_event;
    repeat (apply Forall_cons; split; [by eauto 8 |]); by apply Forall_nil.
  apply update_outcome_frame in Hupd as (_ & _ & _ & _ & Hev).
  unfold transcriber_event.
  repeat (apply Forall_cons; split; [by eauto 8 |]). apply Forall_app. split.
  - eapply Forall_impl; [exact Hev |]. intros ev ->. eauto 8.
  - destruct r; cbn; [by apply Forall_nil |].
    apply Forall_cons; split; [by eauto 8 | by apply Forall_nil].
Qed.

End TranscriberProps.


Lemma transcriber_main_loaded BASE_DIR writable model s :
  transcriber_main BASE_DIR writable (Ok model) s
  = for_each (audio_files s) (transcribe_item BASE_DIR writable model) s.
Proof.
  unfold transcriber_main, bind, lift. cbn.
  by destruct (for_each _ _ s) as [[r s'] t].
Qed.

Lemma transcriber_main_unloaded BASE_DIR writable e s :
  transcriber_main BASE_DIR writable (Raise e) s = (Raise e, s, []).
Proof. done. Qed.

(** C3. An item whose transcript text file exists is not processed again:
    its loop body does nothing, and a whole run neither transcribes it nor
    writes any of its three files, whether or not its segment file is
    there. *)
Theorem transcriber_resume_checkpoint
  BASE_DIR writable (WhisperModel : result whisper) (X : string) (s : fs) :
  is_Some (transcripts s !! (X +:+ ".txt")) ->
  (forall model name, stem name = X ->
     transcribe_item BASE_DIR writable model name s = (Ok tt, s, []))
  /\ (forall name, stem name = X ->
        Transcribed name ∉ trace_of (transcriber_main BASE_DIR writable WhisperModel s))
  /\ (forall d ext, ext = ".txt" \/ ext = ".json" ->
        Wrote d (X +:+ ext) ∉ trace_of (transcriber_main BASE_DIR writable WhisperModel s))
  /\ (forall ext, ext = ".txt" \/ ext = ".json" ->
        transcripts (fs_of (transcriber_main BASE_DIR writable WhisperModel s)) !! (X +:+ ext)
        = transcripts s !! (X +:+ ext))
  /\ metadata (fs_of (transcriber_main BASE_DIR writable WhisperModel s)) !! (X +:+ ".json")
     = metadata s !! (X +:+ ".json").
Proof.
  intros Hex. split.
  { intros model name <-. by apply transcribe_item_skip. }
  destruct WhisperModel as [model|e].
  2:{ rewrite transcriber_main_unloaded. cbn.
      split; [intros; apply not_elem_of_nil |].
      split; [intros; apply not_elem_of_nil | done]. }
  rewrite transcriber_main_loaded.
  set (I := fun s' : fs =>
    transcripts s' !! (X +:+ ".txt") = transcripts s !! (X +:+ ".txt")
    /\ transcripts s' !! (X +:+ ".json") = transcripts s !! (X +:+ ".json")
    /\ metadata s' !! (X +:+ ".json") = metadata s !! (X +:+ ".json")).
  set (T := fun ev : event =>
    (forall name, stem name = X -> ev <> Transcribed name)
    /\ (forall d, ev <> Wrote d (X +:+ ".txt"))
    /\ (forall d, ev <> Wrote d (X +:+ ".json"))).
  destruct (for_each_inv (transcribe_item BASE_DIR writable model) I T
              (audio_files s)) with (s := s) as (_ & (Ht & Hj & Hm) & HT).
  - intros x s' _ (Ht & Hj & Hm).
    destruct (decide (stem x = X)) as [<-|Hne].
    + rewrite transcribe_item_skip by (rewrite Ht; done).
      split; [done |]. split; [done | apply Forall_nil_2].
    + assert (Hne' : forall ext, X +:+ ext <> stem x +:+ ext).
      { intros ext Heq. by apply append_inj_l in Heq. }
      split; [apply transcribe_item_returns |]. split.
      * unfold I. rewrite !transcribe_item_transcripts, transcribe_item_metadata;
          auto using txt_not_json.
      * eapply Forall_impl; [apply transcribe_item_trace |].
        intros ev Hev. unfold T.
        destruct Hev as [->|[->|[->|[->|[e ->]]]]];
          repeat split; intros; try discriminate;
          intros [=]; try congruence.
        all: try (by eapply Hne'); try (by eapply txt_not_json).
        all: by eapply (txt_not_json (stem x) X).
  - by unfold I.
  - rewrite Forall_forall in HT. repeat split.
    + intros name Hname Hin. by apply (proj1 (HT _ Hin) name).
    + intros d ext [->| ->] Hin.
      * by apply (proj1 (proj2 (HT _ Hin)) d).
      * by apply (proj2 (proj2 (HT _ Hin)) d).
    + by intros ext [->| ->].
    + done.
Qed.

(** C10. The Transcriber writes the Metadata Record of an item last:
    when the transcription raises or one of the two transcript files
    cannot be written, the metadata directory is left as it was and no
    record is written; a record write is the fourth effect of the item,
    after the transcription and the two transcript writes, which are then
    both on disk; and the metadata directory changes only by that
    write. *)
Theorem transcriber_metadata_last
  BASE_DIR writable (model : whisper) (name : string) (s : fs) :
  ((exists e, model (path_str BASE_DIR AUDIO_DIR name) (audio s !! name)
              = Raise e)
   \/ writable TRANS_DIR (stem name +:+ ".txt") = false
   \/ writable TRANS_DIR (stem name +:+ ".json") = false ->
   metadata (fs_of (transcribe_item BASE_DIR writable model name s))
   = metadata s
   /\ forall n, Wrote META_DIR n
        ∉ trace_of (transcribe_item BASE_DIR writable model name s))
  /\ (forall n,
        Wrote META_DIR n
          ∈ trace_of (transcribe_item BASE_DIR writable model name s) ->
        trace_of (transcribe_item BASE_DIR writable model name s)
        = [Transcribed name; Wrote TRANS_DIR (stem name +:+ ".txt");
           Wrote TRANS_DIR (stem name +:+ ".json"); Wrote META_DIR n]
        /\ is_Some (transcripts
                      (fs_of (transcribe_item BASE_DIR writable model name s))
                    !! (stem name +:+ ".txt"))
        /\ is_Some (transcripts
                      (fs_of (transcribe_item BASE_DIR writable model name s))
                    !! (stem name +:+ ".json")))
  /\ (metadata (fs_of (transcribe_item BASE_DIR writable model name s))
      <> metadata s ->
      Wrote META_DIR (stem name +:+ ".json")
        ∈ trace_of (transcribe_item BASE_DIR writable model name s)).
Proof.
  destruct (transcribe_item_outcome BASE_DIR writable model name s)
    as [Hex|e Hno He|segs Hno Hsegs Hw1|segs Hno Hsegs Hw1 Hw2
        |segs r s' t Hno Hsegs Hw1 Hw2 Hupd]; cbn.
  1-4: split; [intros _; split; [by destruct s |];
                 intros n; rewrite ?elem_of_cons, elem_of_nil; naive_solver |];
       split; [intros n; rewrite ?elem_of_cons, elem_of_nil; naive_solver |];
       by destruct s.
  split; [intros [[e He]|[Hf|Hf]]; congruence |].
  pose proof (update_outcome_frame _ _ _ _ _ _ _ _ Hupd)
    as (_ & Htr & _ & _ & _).
  inversion Hupd as [Hnone|f Hf Hnj|j Hj Hnobj|d0 Hd Hw0|d0 Hd Hw0]; subst;
    cbn.
  1-4: split; [intros n; rewrite ?elem_of_cons, elem_of_nil; naive_solver |];
       by destruct s.
  split.
  - intros n. rewrite !elem_of_cons, elem_of_nil.
    intros [|[|[|[[= <-]|[]]]]]; try discriminate.
    split; [done |]. destruct s; cbn.
    split; [apply insert_keeps |]; rewrite lookup_insert_eq; by eexists.
  - intros _. rewrite !elem_of_cons. auto.
Qed.

(** ** The Summarizer *)

Lemma stateless_ret {A} (a : A) : stateless (ret a).
Proof. by exists (Ok a), []. Qed.

Lemma stateless_raise {A} (e : exn) : stateless (@raise A e).
Proof. by exists (Raise e), []. Qed.

Lemma stateless_emit (ev : event) : stateless (emit ev).
Proof. by exists (Ok tt), [ev]. Qed.

Lemma stateless_lift {A} (r : result A) : stateless (lift r).
Proof. by exists r, []. Qed.

Lemma stateless_bind {A B} (m : M A) (f : A -> M B) :
  stateless m -> (forall a, stateless (f a)) -> stateless (bind m f).
Proof.
  intros (r & t & Hm) Hf. destruct r as [a|e].
  - destruct (Hf a) as (r' & t' & Hfa). exists r', (t ++ t'). intros s.
    unfold bind. by rewrite Hm, Hfa.
  - exists (Raise e), t. intros s. unfold bind. by rewrite Hm.
Qed.

Lemma stateless_map_each {A B} (l : list A) (body : A -> M B) :
  (forall x, stateless (body x)) -> stateless (map_each l body).
Proof.
  intros Hbody. induction l as [|x l IH]; cbn [map_each].
  - apply stateless_ret.
  - apply stateless_bind; [done |]. intros y.
    apply stateless_bind; [done |]. intros ys. apply stateless_ret.
Qed.

Lemma stateless_summarize_text lexrank use_extractive summarizer txt :
  stateless (summarize_text lexrank use_extractive summarizer txt).
Proof.
  unfold summarize_text, extractive_summary, abstractive_summary.
  destruct use_extractive.
  - apply stateless_bind; [| intros; apply stateless_ret].
    apply stateless_bind; [apply stateless_emit |].
    intros _. apply stateless_lift.
  - apply stateless_bind; [| intros; apply stateless_ret].
    apply stateless_map_each. intros chunk.
    apply stateless_bind; [| intros; apply stateless_ret].
    unfold call_summarizer. destruct summarizer; [| apply stateless_raise].
    apply stateless_bind; [apply stateless_emit |].
    intros _. apply stateless_lift.
Qed.

Arguments abstractive_summary : simpl never.
Arguments extractive_summary : simpl never.
Arguments summarize_text : simpl never.

Lemma summarize_item_outcome
  BASE_DIR writable lexrank use_extractive summarizer tfile s :
  summarize_outcome BASE_DIR writable lexrank use_extractive summarizer tfile s
    (summarize_item BASE_DIR writable lexrank use_extractive summarizer
       tfile s).
Proof.
  pose proof (update_metadata_outcome writable (stem tfile) "summary_path"
    (path_str BASE_DIR SUMM_DIR (stem tfile +:+ "_summary.txt"))) as Hupd.
  unfold summarize_item.
  change (if use_extractive then extractive_summary lexrank ?t 5
          else abstractive_summary ?t summarizer)
    with (summarize_text lexrank use_extractive summarizer t).
  destruct s as [a tr su m].
  unfold exists_, read_text, write_file, try_except, bind, ret, raise, emit,
    lift.
  cbn.
  destruct (su !! (stem tfile +:+ "_summary.txt")) as [f|] eqn:Hsu; cbn.
  { apply su_skip. cbn. by rewrite Hsu. }
  destruct (tr !! tfile) as [f|] eqn:Htr; cbn.
  2:{ by apply su_missing. }
  destruct f as [raw|j|b]; cbn.
  2,3: by eapply su_undecodable.
  destruct (Nat.leb_spec (length (strip raw)) 99) as [Hlen|Hlen]; cbn.
  { eapply su_short; [done | done | lia]. }
  assert (Hlong : 100 <= length (strip raw)) by lia. clear Hlen.
  destruct (stateless_summarize_text lexrank use_extractive summarizer
              (strip raw)) as (r & t & Hst).
  rewrite Hst. cbn.
  destruct r as [summary_text|e]; cbn.
  2:{ eapply su_strategy_raises; eauto. }
  destruct (writable SUMM_DIR (stem tfile +:+ "_summary.txt")) eqn:Hw; cbn.
  2:{ rewrite app_nil_r. eapply su_unwritable; eauto. }
  match goal with
  | |- context [update_metadata _ _ _ _ ?s2] => specialize (Hupd s2)
  end.
  destruct (update_metadata _ _ _ _ _) as [[r s'] t'].
  pose proof (su_written BASE_DIR writable lexrank use_extractive summarizer
                tfile (Fs a tr su m) raw summary_text t r s' t'
                Hsu Htr Hlong (Hst _) Hw Hupd) as H.
  destruct r as [[]|e]; cbn in *.
  - by rewrite app_nil_r in H.
  - by rewrite <- !app_assoc.
Qed.

(** ** Running a stage twice *)

Section TranscriberTwice.

Variable BASE_DIR : string.
Variable writable : dir -> string -> bool.
Variable model : whisper.

Local Abbreviation item := (transcribe_item BASE_DIR writable model).

Lemma no_transcript_settled name s :
  no_transcript BASE_DIR writable model name s -> fs_of (item name s) = s.
Proof.
  intros Hno.
  destruct (transcribe_item_outcome BASE_DIR writable model name s)
    as [Hex|e Hnone He|segs Hnone Hsegs Hw1|segs Hnone Hsegs Hw1 Hw2
        |segs r s' t Hnone Hsegs Hw1 Hw2 Hupd]; try done.
  all: destruct Hno as [[f Hf]|[[e0 He]|Hw]]; congruence.
Qed.

Lemma settled_no_transcript name s :
  fs_of (item name s) = s -> no_transcript BASE_DIR writable model name s.
Proof.
  destruct (transcribe_item_outcome BASE_DIR writable model name s)
    as [Hex|e Hnone He|segs Hnone Hsegs Hw1|segs Hnone Hsegs Hw1 Hw2
        |segs r s' t Hnone Hsegs Hw1 Hw2 Hupd]; cbn; intros Heq.
  - by left.
  - right; left. by exists e.
  - by right; right.
  - apply (f_equal (fun s0 => transcripts s0 !! (stem name +:+ ".txt")))
      in Heq.
    destruct s; cbn in *. rewrite lookup_insert_eq in Heq. congruence.
  - apply update_outcome_frame in Hupd as (_ & Htr & _).
    subst s'. destruct s; cbn in *.
    apply (f_equal (fun m => m !! (stem name +:+ ".txt"))) in Htr.
    rewrite lookup_insert_ne, lookup_insert_eq in Htr
      by (intros Heq; by apply (txt_not_json (stem name) (stem name))).
    congruence.
Qed.

Lemma no_transcript_after name s : no_transcript BASE_DIR writable model name (fs_of (item name s)).
Proof.
  destruct (transcribe_item_outcome BASE_DIR writable model name s)
    as [Hex|e Hnone He|segs Hnone Hsegs Hw1|segs Hnone Hsegs Hw1 Hw2
        |segs r s' t Hnone Hsegs Hw1 Hw2 Hupd]; cbn.
  - by left.
  - right; left. by exists e.
  - by right; right.
  - left. destruct s; cbn. rewrite lookup_insert_eq. by eexists.
  - left. apply update_outcome_frame in Hupd as (_ & -> & _).
    destruct s; cbn. apply insert_keeps. rewrite lookup_insert_eq.
    by eexists.
Qed.

Lemma no_transcript_kept name other s :
  no_transcript BASE_DIR writable model name s -> no_transcript BASE_DIR writable model name (fs_of (item other s)).
Proof.
  intros [Hex|[[e He]|Hw]].
  - left. by apply transcribe_item_keeps.
  - right; left. exists e.
    by rewrite (proj1 (transcribe_item_others _ _ _ other s)).
  - by right; right.
Qed.

Lemma transcribe_loop_audio l s :
  audio (fs_of (for_each l item s)) = audio s.
Proof.
  destruct (for_each_inv item (fun s' => audio s' = audio s)
              (fun _ => True) l) with (s := s) as (_ & H & _); try done.
  intros x s' _ Hs'. split; [apply transcribe_item_returns |].
  split; [| by apply Forall_true].
  by rewrite (proj1 (transcribe_item_others _ _ _ x s')).
Qed.

Lemma transcribe_loop_twice l s :
  fs_of (for_each l item (fs_of (for_each l item s)))
  = fs_of (for_each l item s).
Proof.
  apply for_each_twice.
  - apply transcribe_item_returns.
  - intros x s0. apply no_transcript_settled, no_transcript_after.
  - intros x y s0 Hx.
    by apply no_transcript_settled, no_transcript_kept,
      settled_no_transcript.
Qed.

End TranscriberTwice.

Lemma transcriber_main_twice BASE_DIR writable WhisperModel s :
  fs_of (transcriber_main BASE_DIR writable WhisperModel
           (fs_of (transcriber_main BASE_DIR writable WhisperModel s)))
  = fs_of (transcriber_main BASE_DIR writable WhisperModel s).
Proof.
  destruct WhisperModel as [model|e]; [| done].
  rewrite !transcriber_main_loaded.
  unfold audio_files at 1. rewrite transcribe_loop_audio.
  apply transcribe_loop_twice.
Qed.

Section SummarizerProps.

Variable BASE_DIR : string.
Variable writable : dir -> string -> bool.
Variable lexrank : text -> nat -> result (list text).
Variable use_extractive : bool.
Variable summarizer : option summarizer_t.

Local Abbreviation item :=
  (summarize_item BASE_DIR writable lexrank use_extractive summarizer).
Local Abbreviation item_outcome :=
  (summarize_item_outcome BASE_DIR writable lexrank use_extractive
     summarizer).
Local Abbreviation strategy :=
  (summarize_text lexrank use_extractive summarizer).

Lemma summarize_item_skip tfile s :
  is_Some (summaries s !! (stem tfile +:+ "_summary.txt")) ->
  item tfile s = (Ok tt, s, []).
Proof.
  intros Hex. unfold summarize_item.
  rewrite (bind_ok _ _ s true s []); [done |].
  unfold exists_. by rewrite bool_decide_eq_true_2.
Qed.

Lemma summarize_item_returns tfile s : result_of (item tfile s) = Ok tt.
Proof. by destruct (item_outcome tfile s). Qed.

Lemma summarize_item_others tfile s :
  audio (fs_of (item tfile s)) = audio s
  /\ transcripts (fs_of (item tfile s)) = transcripts s.
Proof.
  destruct (item_outcome tfile s)
    as [| | | | | |raw txt t r s' t' _ _ _ _ _ Hupd]; try done.
  apply update_outcome_frame in Hupd as (Ha & Ht & _).
  destruct s; cbn in *. by rewrite Ha, Ht.
Qed.

Lemma summarize_item_keeps tfile s k :
  is_Some (summaries s !! k) ->
  is_Some (summaries (fs_of (item tfile s)) !! k).
Proof.
  intros Hk.
  destruct (item_outcome tfile s)
    as [| | | | | |raw txt t r s' t' _ _ _ _ _ Hupd]; try done.
  apply update_outcome_frame in Hupd as (_ & _ & Hs & _).
  destruct s; cbn in *. rewrite Hs. by apply insert_keeps.
Qed.

Lemma strategy_result s s' txt :
  result_of (strategy txt s') = result_of (strategy txt s).
Proof.
  destruct (stateless_summarize_text lexrank use_extractive summarizer txt)
    as (r & t & Hst).
  by rewrite !Hst.
Qed.

Lemma no_summary_settled tfile s :
  no_summary writable lexrank use_extractive summarizer tfile s ->
  fs_of (item tfile s) = s.
Proof.
  intros Hno.
  destruct (item_outcome tfile s)
    as [| | | | |raw txt t Hnone Hraw Hlen Hst Hw
        |raw txt t r s' t' Hnone Hraw Hlen Hst Hw Hupd]; try done.
  destruct Hno as [[f Hf]|[Hw'|Hno]]; [congruence | congruence |].
  destruct (Hno raw Hraw Hlen) as [e He]. by rewrite Hst in He.
Qed.

Lemma settled_no_summary tfile s :
  fs_of (item tfile s) = s ->
  no_summary writable lexrank use_extractive summarizer tfile s.
Proof.
  destruct (item_outcome tfile s)
    as [Hex|Hnone Hraw|f Hnone Hraw Hf|raw Hnone Hraw Hlen
        |raw e t Hnone Hraw Hlen Hst|raw txt t Hnone Hraw Hlen Hst Hw
        |raw txt t r s' t' Hnone Hraw Hlen Hst Hw Hupd]; cbn; intros Heq.
  - by left.
  - right; right. intros raw Hr. congruence.
  - right; right. intros raw Hr. rewrite Hraw in Hr. simplify_eq.
    by destruct (Hf raw).
  - right; right. intros raw' Hr. rewrite Hraw in Hr. simplify_eq. lia.
  - right; right. intros raw' Hr _. rewrite Hraw in Hr. simplify_eq.
    exists e. by rewrite Hst.
  - by right; left.
  - apply update_outcome_frame in Hupd as (_ & _ & Hsu & _).
    subst s'. destruct s; cbn in *.
    apply (f_equal (fun m => m !! (stem tfile +:+ "_summary.txt"))) in Hsu.
    rewrite lookup_insert_eq in Hsu. congruence.
Qed.

Lemma no_summary_after tfile s :
  no_summary writable lexrank use_extractive summarizer tfile
    (fs_of (item tfile s)).
Proof.
  pose proof (settled_no_summary tfile s) as Hsettled.
  destruct (item_outcome tfile s)
    as [| | | | | |raw txt t r s' t' _ _ _ _ _ Hupd]; try by apply Hsettled.
  left. apply update_outcome_frame in Hupd as (_ & _ & Hsu & _).
  cbn. rewrite Hsu. destruct s; cbn. rewrite lookup_insert_eq. by eexists.
Qed.

Lemma no_summary_kept tfile other s :
  no_summary writable lexrank use_extractive summarizer tfile s ->
  no_summary writable lexrank use_extractive summarizer tfile
    (fs_of (item other s)).
Proof.
  intros [Hex|[Hw|Hno]].
  - left. by apply summarize_item_keeps.
  - by right; left.
  - right; right. intros raw.
    rewrite (proj2 (summarize_item_others other s)).
    intros Hraw Hlen. destruct (Hno raw Hraw Hlen) as [e He].
    exists e. by rewrite (strategy_result s).
Qed.

Lemma summarize_loop_transcripts l s :
  transcripts (fs_of (for_each l item s)) = transcripts s.
Proof.
  destruct (for_each_inv item (fun s' => transcripts s' = transcripts s)
              (fun _ => True) l) with (s := s) as (_ & H & _); try done.
  intros x s' _ Hs'. split; [apply summarize_item_returns |].
  split; [| by apply Forall_true].
  by rewrite (proj2 (summarize_item_others x s')).
Qed.

Lemma summarize_loop_twice l s :
  fs_of (for_each l item (fs_of (for_each l item s)))
  = fs_of (for_each l item s).
Proof.
  apply for_each_twice.
  - apply summarize_item_returns.
  - intros x s0. apply no_summary_settled, no_summary_after.
  - intros x y s0 Hx.
    by apply no_summary_settled, no_summary_kept, settled_no_summary.
Qed.

End SummarizerProps.

(** ** The strategy of a run *)

Lemma summarizer_main_abstractive BASE_DIR writable f lexrank s :
  summarizer_main BASE_DIR writable (Ok f) lexrank s
  = for_each (transcript_files s)
      (summarize_item BASE_DIR writable lexrank false (Some f)) s.
Proof.
  unfold summarizer_main, choose_strategy, try_except, bind, lift, ret. cbn.
  by destruct (for_each _ _ s) as [[r s'] t].
Qed.

Lemma summarizer_main_extractive BASE_DIR writable e lexrank s :
  summarizer_main BASE_DIR writable (Raise e) lexrank s
  = (result_of (for_each (transcript_files s)
                  (summarize_item BASE_DIR writable lexrank true None) s),
     fs_of (for_each (transcript_files s)
              (summarize_item BASE_DIR writable lexrank true None) s),
     FallingBack e
       :: trace_of (for_each (transcript_files s)
                      (summarize_item BASE_DIR writable lexrank true None) s)).
Proof.
  unfold summarizer_main, choose_strategy, try_except, bind, lift, ret, emit.
  cbn. by destruct (for_each _ _ s) as [[r s'] t].
Qed.

Lemma abstractive_calls summarizer (cs : list text) s :
  Forall (strategy_event false)
    (trace_of (map_each cs (fun chunk =>
       let* summary := call_summarizer summarizer chunk in
       ret (strip summary)) s)).
Proof.
  revert s. induction cs as [|c cs IH]; intros s; [by apply Forall_nil |].
  cbn [map_each]. unfold bind at 1.
  destruct (bind (call_summarizer summarizer c) _ s) as [[[y|e] s1] t1] eqn:Hc.
  - specialize (IH s1). unfold bind at 1.
    destruct (map_each cs _ s1) as [[[ys|e] s2] t2]; cbn in *.
    all: apply Forall_app; split; rewrite ?app_nil_r; try done.
    all: revert Hc; unfold call_summarizer, bind, emit, lift, ret, raise;
      destruct summarizer as [f|]; [destruct (f c) |]; intros [= <- <- <-];
      repeat constructor.
  - cbn. revert Hc; unfold call_summarizer, bind, emit, lift, ret, raise;
      destruct summarizer as [f|]; [destruct (f c) |]; intros [= <- <- <-];
      repeat constructor.
Qed.

Lemma summarize_text_trace lexrank use_extractive summarizer txt s :
  Forall (strategy_event use_extractive)
    (trace_of (summarize_text lexrank use_extractive summarizer txt s)).
Proof.
  unfold summarize_text. destruct use_extractive.
  - unfold extractive_summary, bind, emit, lift, ret.
    destruct (lexrank txt 5); repeat constructor.
  - unfold abstractive_summary. unfold bind at 1.
    pose proof (abstractive_calls summarizer (chunks_of txt) s) as H.
    destruct (map_each _ _ s) as [[[ys|e] s1] t1]; cbn in *; [| done].
    by rewrite app_nil_r.
Qed.

Lemma summarize_item_trace
  BASE_DIR writable lexrank use_extractive summarizer tfile s :
  Forall (strategy_event use_extractive)
    (trace_of (summarize_item BASE_DIR writable lexrank use_extractive
                 summarizer tfile s)).
Proof.
  pose proof (summarize_text_trace lexrank use_extractive summarizer) as Hst.
  destruct (summarize_item_outcome BASE_DIR writable lexrank use_extractive
              summarizer tfile s)
    as [Hex|Hnone Hraw|f Hnone Hraw Hf|raw Hnone Hraw Hlen
        |raw e t Hnone Hraw Hlen Ht|raw txt t Hnone Hraw Hlen Ht Hw
        |raw txt t r s' t' Hnone Hraw Hlen Ht Hw Hupd]; cbn.
  1-4: repeat constructor.
  1-3: specialize (Hst (strip raw) s); rewrite Ht in Hst; cbn in Hst.
  1-2: apply Forall_app; split; [done | repeat constructor].
  apply update_outcome_frame in Hupd as (_ & _ & _ & _ & Hev).
  apply Forall_app; split; [done |]. constructor; [done |].
  apply Forall_app; split.
  - eapply Forall_impl; [exact Hev |]. by intros ev ->.
  - destruct r; repeat constructor.
Qed.

(** C7. The strategy is chosen once, before the loop, and every item of
    the run is handled under it: when the summarizer cannot be
    initialized the run falls back once, first of all, and then never
    calls the abstractive summarizer; when it can, the run never falls
    back and never calls the sentence ranker. *)
Theorem strategy_fixed_per_run
  BASE_DIR writable (pipeline : result summarizer_t) lexrank (s : fs) :
  (forall e, pipeline = Raise e ->
     exists t,
       trace_of (summarizer_main BASE_DIR writable pipeline lexrank s)
       = FallingBack e :: t
       /\ Forall (strategy_event true) t)
  /\ (forall f, pipeline = Ok f ->
        Forall (strategy_event false)
          (trace_of (summarizer_main BASE_DIR writable pipeline lexrank s)))
  /\ exists use_extractive summarizer,
       use_extractive
         = match pipeline with Ok _ => false | Raise _ => true end
       /\ fs_of (summarizer_main BASE_DIR writable pipeline lexrank s)
          = fs_of (for_each (transcript_files s)
                     (summarize_item BASE_DIR writable lexrank use_extractive
                        summarizer) s).
Proof.
  split; [| split].
  - intros e ->. rewrite summarizer_main_extractive. cbn.
    eexists; split; [done |].
    apply (for_each_inv _ (fun _ => True) (strategy_event true)); [| done].
    intros x s' _ _. split; [apply summarize_item_returns |].
    split; [done | apply summarize_item_trace].
  - intros f ->. rewrite summarizer_main_abstractive.
    apply (for_each_inv _ (fun _ => True) (strategy_event false)); [| done].
    intros x s' _ _. split; [apply summarize_item_returns |].
    split; [done | apply summarize_item_trace].
  - destruct pipeline as [f|e].
    + exists false, (Some f). by rewrite summarizer_main_abstractive.
    + exists true, None. by rewrite summarizer_main_extractive.
Qed.

(** ** Short transcripts *)


(** ** The fields of a Metadata Record *)


(** ** The Fetcher *)

Section FetcherProps.

Variable BASE_DIR : string.
Variable writable : dir -> string -> bool.
Variable ydl_download :
  json -> gmap string file -> result unit * gmap string file.

Local Abbreviation item := (download_item BASE_DIR writable ydl_download).

Lemma locate_audio_spec video_id s :
  locate_audio video_id s
  = (Ok (match audio s !! (video_id +:+ ".mp3") with
         | Some _ => Some (video_id +:+ ".mp3")
         | None => head (glob (video_id +:+ ".*") (audio s))
         end), s, []).
Proof.
  unfold locate_audio, exists_, bind, ret. cbn.
  by destruct (audio s !! (video_id +:+ ".mp3")).
Qed.

(** Every run retrieves every item again: the Fetcher has no check of
    what is already there. *)
Lemma download_item_retrieves results entry s :
  exists t,
    trace_of (item results (Some entry) s)
    = Retrieved (e_webpage_url entry) :: t.
Proof.
  unfold download_item, try_except, retrieve. unfold bind at 1.
  unfold bind at 1. unfold ret at 1.
  destruct (ydl_download _ _) as [[[]|e] a']; cbn.
  - destruct (bind (locate_audio _) _ _) as [[r s'] t]. by eexists.
  - by eexists.
Qed.



End FetcherProps.


(** ** What the Transcriber visits *)

Lemma audio_files_elem s name :
  name ∈ audio_files s
  <-> is_Some (audio s !! name) /\ fnmatch "*.mp3" name = true.
Proof.
  unfold audio_files, sorted, glob, listdir.
  rewrite merge_sort_Permutation, list_elem_of_filter, list_elem_of_fmap.
  split.
  - intros [Hm [[k f] [-> Hin]]]. apply elem_of_map_to_list in Hin.
    split; [by eexists | done].
  - intros [[f Hf] Hm]. split; [done |]. exists (name, f).
    split; [done |]. by apply elem_of_map_to_list.
Qed.

Lemma audio_files_sorted s : StronglySorted String.le (audio_files s).
Proof. apply StronglySorted_merge_sort; apply _. Qed.

(** C2. The Transcriber lists the [.mp3] files of the audio directory, in
    the order of their names, and nothing else: an audio file that the
    Fetcher stored under another extension, and recorded as the item's
    [audio_path], is not visited, and the run does nothing. *)
Theorem transcriber_misses_fallback_audio :
  (forall s, StronglySorted String.le (audio_files s))
  /\ (forall s name,
        name ∈ audio_files s
        <-> is_Some (audio s !! name) /\ fnmatch "*.mp3" name = true)
  /\ audio fs_fetched_m4a !! "abc.m4a" = Some (FBytes [0%N; 0%N; 0%N; 32%N])
  /\ (exists d,
        metadata fs_fetched_m4a !! "abc.json" = Some (FJson (JObj d))
        /\ dict_get "audio_path" d
           = Some (JStr (text_of_string "/srv/app/data/audio/abc.m4a")))
  /\ audio_files fs_fetched_m4a = []
  /\ transcriber_main ex_base all_writable (Ok ex_model) fs_fetched_m4a
     = (Ok tt, fs_fetched_m4a, []).
Proof.
  split; [apply audio_files_sorted |].
  split; [apply audio_files_elem |].
  split; [by vm_compute |].
  split; [eexists; split; by vm_compute |].
  split; by vm_compute.
Qed.

Lemma summarizer_main_twice BASE_DIR writable pipeline lexrank s :
  fs_of (summarizer_main BASE_DIR writable pipeline lexrank
           (fs_of (summarizer_main BASE_DIR writable pipeline lexrank s)))
  = fs_of (summarizer_main BASE_DIR writable pipeline lexrank s).
Proof.
  destruct pipeline as [f|e].
  - rewrite !summarizer_main_abstractive.
    unfold transcript_files at 1. rewrite summarize_loop_transcripts.
    apply summarize_loop_twice.
  - rewrite !summarizer_main_extractive. cbn.
    unfold transcript_files at 1. rewrite summarize_loop_transcripts.
    apply summarize_loop_twice.
Qed.

(** C1 does not hold as a statement about skipping: on its second run the
    Fetcher retrieves the item again and rewrites its record. *)
Lemma second_run_not_skipped : ~ every_stage_skips.
Proof.
  intros H.
  destruct (H ex_base all_writable ex_extract ex_ydl_mp3 (Ok ex_model)
              (Ok ex_summarizer) ex_lexrank ex_url fs_empty)
    as [[_ Htrace] _].
  vm_compute in Htrace. discriminate.
Qed.

(** The second run of the Fetcher, and of a Transcriber whose model fails
    on the item. *)
Example fetcher_second_run :
  trace_of (download ex_base all_writable ex_extract ex_ydl_mp3 ex_url
              fs_fetched)
  = [Retrieved (JStr (text_of_string ex_url)); Wrote META_DIR "abc.json"].
Proof. by vm_compute. Qed.

Example transcriber_second_run_retries :
  trace_of (transcriber_main ex_base all_writable (Ok ex_model_failing)
              (fs_of (transcriber_main ex_base all_writable
                        (Ok ex_model_failing) fs_fetched)))
  = [Transcribed "abc.mp3";
     Warned "abc.mp3" (CollaboratorError "cannot decode")].
Proof. by vm_compute. Qed.

(** C1, as the code has it: a second run of the Transcriber or of the
    Summarizer in a row changes no file; the body of either loop does
    nothing at all for an item whose output file exists; and the Fetcher
    checks nothing: it starts every item with a retrieval. *)
Theorem second_run_changes_no_file
  BASE_DIR writable WhisperModel pipeline lexrank (s : fs) :
  fs_of (transcriber_main BASE_DIR writable WhisperModel
           (fs_of (transcriber_main BASE_DIR writable WhisperModel s)))
  = fs_of (transcriber_main BASE_DIR writable WhisperModel s)
  /\ fs_of (summarizer_main BASE_DIR writable pipeline lexrank
              (fs_of (summarizer_main BASE_DIR writable pipeline lexrank s)))
     = fs_of (summarizer_main BASE_DIR writable pipeline lexrank s)
  /\ (forall model name s0,
        is_Some (transcripts s0 !! (stem name +:+ ".txt")) ->
        transcribe_item BASE_DIR writable model name s0 = (Ok tt, s0, []))
  /\ (forall use_extractive summarizer tfile s0,
        is_Some (summaries s0 !! (stem tfile +:+ "_summary.txt")) ->
        summarize_item BASE_DIR writable lexrank use_extractive summarizer
          tfile s0 = (Ok tt, s0, []))
  /\ (forall ydl_download results entry s0,
        exists t,
          trace_of (download_item BASE_DIR writable ydl_download results
                      (Some entry) s0)
          = Retrieved (e_webpage_url entry) :: t).
Proof.
  split; [apply transcriber_main_twice |].
  split; [apply summarizer_main_twice |].
  split; [intros; by apply transcribe_item_skip |].
  split; [intros; by apply summarize_item_skip |].
  intros. apply download_item_retrieves.
Qed.

(** ** The theorems at the concrete installation *)

(** A transcript text file without its segment file: the item is not
    transcribed and the segment file stays absent. *)
Lemma transcriber_resume_checkpoint_witness :
  is_Some (transcripts fs_text_only !! ("abc" +:+ ".txt"))
  /\ transcripts fs_text_only !! ("abc" +:+ ".json") = None
  /\ (Transcribed "abc.mp3"
        ∉ trace_of (transcriber_main ex_base all_writable (Ok ex_model)
                      fs_text_only))
  /\ transcripts (fs_of (transcriber_main ex_base all_writable (Ok ex_model)
                           fs_text_only)) !! ("abc" +:+ ".json") = None.
Proof.
  assert (H : is_Some (transcripts fs_text_only !! ("abc" +:+ ".txt"))).
  { eexists. vm_compute. reflexivity. }
  destruct (transcriber_resume_checkpoint ex_base all_writable (Ok ex_model)
              "abc" fs_text_only H) as (_ & Hnot & _ & Hfiles & _).
  split; [exact H |]. split; [vm_compute; reflexivity |].
  split; [apply Hnot; vm_compute; reflexivity |].
  rewrite (Hfiles ".json"); [vm_compute; reflexivity | right; reflexivity].
Defined.





(** A failed transcription leaves the records alone. *)
Lemma transcriber_metadata_last_witness :
  metadata (fs_of (transcribe_item ex_base all_writable ex_model_failing
                     "abc.mp3" fs_fetched))
  = metadata fs_fetched.
Proof.
  apply (proj1 (transcriber_metadata_last ex_base all_writable
                  ex_model_failing "abc.mp3" fs_fetched)).
  left. eexists. reflexivity.
Defined.

(** A run whose summarizer cannot be initialized. *)
Lemma strategy_fixed_per_run_witness :
  exists t,
    trace_of (summarizer_main ex_base all_writable (Raise ex_init_error)
                ex_lexrank (fs_transcribed long_text))
    = FallingBack ex_init_error :: t
    /\ Forall (strategy_event true) t.
Proof.
  apply (proj1 (strategy_fixed_per_run ex_base all_writable
                  (Raise ex_init_error) ex_lexrank
                  (fs_transcribed long_text))).
  reflexivity.
Defined.

(** The item of a transcript that is there is skipped. *)
Lemma second_run_changes_no_file_witness :
  transcribe_item ex_base all_writable ex_model "abc.mp3" fs_text_only
  = (Ok tt, fs_text_only, []).
Proof.
  destruct (second_run_changes_no_file ex_base all_writable (Ok ex_model)
              (Ok ex_summarizer) ex_lexrank fs_text_only)
    as (_ & _ & Hskip & _).
  apply Hskip. eexists. vm_compute. reflexivity.
Defined.

(** * Further properties *)

(** ** The size of the chunks *)

Lemma range_from_lookup (n fuel start stop i x : nat) :
  range_from fuel start stop n !! i = Some x ->
  x = start + i * n /\ x < stop.
Proof.
  revert start i. induction fuel as [|fuel IH]; intros start i; [done |].
  cbn [range_from].
  destruct (Nat.ltb_spec start stop) as [Hlt|Hge]; [| done].
  destruct i as [|i]; cbn.
  - intros [= <-]. lia.
  - intros H. apply IH in H. lia.
Qed.

Lemma chunks_of_lookup (txt : text) (i : nat) (c : text) :
  chunks_of txt !! i = Some c ->
  c = take max_chunk (drop (i * max_chunk) txt)
  /\ i * max_chunk < length txt.
Proof.
  unfold chunks_of, range_, slice. generalize max_chunk. intros n.
  rewrite list_lookup_fmap.
  destruct (range_from _ _ _ _ !! i) as [x|] eqn:Hx; [| done].
  apply range_from_lookup in Hx as [-> Hx]. intros [= <-].
  split; [| lia]. f_equal. lia.
Qed.

(** X1. Every chunk holds between 1 and 5000 characters, every chunk but the
    last exactly 5000, and chunk [i] is the slice that starts at
    [5000 * i]; a text of at most 5000 characters is its own single
    chunk, and the empty text has no chunk. *)
Theorem chunks_bounded (txt : text) :
  (forall i c, chunks_of txt !! i = Some c ->
     c = take 5000 (drop (5000 * i) txt)
     /\ 0 < length c <= 5000
     /\ (S i < length (chunks_of txt) -> length c = 5000))
  /\ (0 < length txt <= 5000 -> chunks_of txt = [txt])
  /\ chunks_of [] = [].
Proof.
  assert (Hlookup : forall i c, chunks_of txt !! i = Some c ->
     c = take 5000 (drop (5000 * i) txt)
     /\ 0 < length c <= 5000
     /\ (S i < length (chunks_of txt) -> length c = 5000)).
  { intros i c Hc. pose proof Hc as Hi.
    apply chunks_of_lookup in Hi as [-> Hi]. change max_chunk with 5000 in *.
    split; [f_equal; f_equal; lia |].
    rewrite length_take, length_drop. split; [lia |].
    intros Hnext. apply lookup_lt_is_Some_2 in Hnext as [c' Hc'].
    apply chunks_of_lookup in Hc' as [_ Hc'].
    change max_chunk with 5000 in *. lia. }
  split; [exact Hlookup |]. split; [| done].
  intros Hlen.
  pose proof (chunks_of_length txt) as Hn. change max_chunk with 5000 in Hn.
  change (5000 - 1) with 4999 in Hn.
  assert (Hone : (length txt + 4999) / 5000 = 1).
  { symmetry. apply (Nat.div_unique _ 5000 1 (length txt - 1)); lia. }
  rewrite Hone in Hn.
  destruct (chunks_of txt) as [|c [|c' l]] eqn:Hcs; try done.
  destruct (Hlookup 0 c eq_refl) as [-> _].
  rewrite Nat.mul_0_r, drop_0, take_ge by lia. done.
Qed.

(** A text of 7 characters is one chunk. *)
Lemma chunks_bounded_witness :
  chunks_of (text_of_string "seven..") = [text_of_string "seven.."].
Proof.
  apply (proj1 (proj2 (chunks_bounded (text_of_string "seven..")))).
  vm_compute. lia.
Defined.

(** ** A summarizer that fails *)

Lemma summarize_chunks_raise (f : summarizer_t) (pre post : list text)
  (c : text) (ys : list text) (e : exn) (s : fs) :
  Forall2 (fun c y => f c = Ok y) pre ys ->
  f c = Raise e ->
  map_each (pre ++ c :: post) (fun chunk =>
    let* summary := call_summarizer (Some f) chunk in ret (strip summary)) s
  = (Raise e, s, map SummarizedChunk (pre ++ [c])).
Proof.
  intros Hpre Hc. induction Hpre as [|c0 y pre ys Hc0 _ IH].
  - cbn [app map_each map].
    apply bind_raise. apply bind_raise.
    unfold call_summarizer, bind, emit, lift. by rewrite Hc.
  - cbn [app map_each map].
    assert (Hcall : call_summarizer (Some f) c0 s
                    = (Ok y, s, [SummarizedChunk c0])).
    { unfold call_summarizer, bind, emit, lift. by rewrite Hc0. }
    rewrite (bind_ok _ _ s (strip y) s [SummarizedChunk c0]).
    2:{ by rewrite (bind_ok _ _ s y s [SummarizedChunk c0] Hcall). }
    by rewrite (bind_raise _ _ _ _ _ _ IH).
Qed.

(** X2. When the summarizer raises on a chunk after answering the chunks
    before it, the abstractive path raises the same exception, has called
    the summarizer on the chunks up to that one and on no later chunk,
    and returns no partial summary.  With no summarizer at all it raises
    on the first chunk without a call, and the empty text gives the empty
    summary without a call. *)
Theorem abstractive_summary_stops_at_failure
  (txt : text) (f : summarizer_t) (pre post : list text) (c : text)
  (ys : list text) (e : exn) (s : fs) :
  chunks_of txt = pre ++ c :: post ->
  Forall2 (fun c y => f c = Ok y) pre ys ->
  f c = Raise e ->
  abstractive_summary txt (Some f) s
  = (Raise e, s, map SummarizedChunk (pre ++ [c]))
  /\ abstractive_summary txt None s = (Raise TypeError, s, [])
  /\ abstractive_summary [] (Some f) s = (Ok [], s, []).
Proof.
  intros Hcs Hpre Hc. split; [| split].
  - unfold abstractive_summary. rewrite Hcs.
    apply bind_raise. by eapply summarize_chunks_raise.
  - unfold abstractive_summary. rewrite Hcs. apply bind_raise.
    destruct pre; cbn [app map_each]; by apply bind_raise, bind_raise.
  - done.
Qed.

(** The only chunk of a short text is too short for the example
    summarizer. *)
Lemma abstractive_summary_stops_at_failure_witness :
  abstractive_summary long_text (Some ex_summarizer_picky) fs_empty
  = (Raise (CollaboratorError "too short"), fs_empty,
     [SummarizedChunk long_text]).
Proof.
  apply (proj1 (abstractive_summary_stops_at_failure long_text
                  ex_summarizer_picky [] [] long_text []
                  (CollaboratorError "too short") fs_empty
                  ltac:(vm_compute; reflexivity)
                  ltac:(constructor)
                  ltac:(vm_compute; reflexivity))).
Defined.

(** ** Trimmed text *)


Lemma lstrip_suffix (t : text) : lstrip t `suffix_of` t.
Proof.
  induction t as [|d t IH]; [done |]. cbn [lstrip].
  destruct (is_space d); [by apply suffix_cons_r | done].
Qed.

Lemma rstrip_prefix (t : text) : rstrip t `prefix_of` t.
Proof.
  unfold rstrip. destruct (lstrip_suffix (reverse t)) as [k Hk].
  exists (reverse k). apply (inj reverse).
  by rewrite reverse_app, !reverse_involutive.
Qed.


Lemma strip_length (t : text) : length (strip t) <= length t.
Proof.
  unfold strip.
  destruct (rstrip_prefix (lstrip t)) as [k Hk].
  destruct (lstrip_suffix t) as [k' Hk'].
  rewrite Hk' at 2. rewrite Hk at 2. rewrite !length_app. lia.
Qed.

Lemma lstrip_fixed (t : text) :
  (forall c, head t = Some c -> is_space c = false) -> lstrip t = t.
Proof.
  destruct t as [|d t]; [done |]. intros H. cbn [lstrip].
  by rewrite (H d eq_refl).
Qed.

(** Trimming a trimmed text changes nothing. *)
Lemma strip_fixed (t : text) : trimmed t -> strip t = t.
Proof.
  intros [Hhead Hlast]. unfold strip, rstrip.
  rewrite (lstrip_fixed t Hhead), (lstrip_fixed (reverse t)).
  - apply reverse_involutive.
  - intros c Hc. apply Hlast. by rewrite <- head_reverse.
Qed.

(** ** The two transcript files *)




(** ** What a whole run leaves *)

Section LoopsMore.

Context {A : Type} (body : A -> M unit).

(** What each item has once it was visited, and keeps while the others
  are, every item of the list has at the end. *)
Lemma for_each_settles (P : A -> fs -> Prop) (l : list A) :
(forall x s, result_of (body x s) = Ok tt) ->
(forall x s, P x (fs_of (body x s))) ->
(forall x y s, P x s -> P x (fs_of (body y s))) ->
forall s, Forall (fun x => P x (fs_of (for_each l body s))) l.
Proof.
intros Hret Hself Hkeep.
assert (Hcons : forall x l' s,
  fs_of (for_each (x :: l') body s)
  = fs_of (for_each l' body (fs_of (body x s)))).
{ intros x l' s. cbn [for_each].
  rewrite (bind_ok _ _ s tt (fs_of (body x s)) (trace_of (body x s))).
  - done.
  - rewrite (outcome_eta (body x s)) at 1. by rewrite Hret. }
assert (Hkeeps : forall x l' s, P x s -> P x (fs_of (for_each l' body s))).
{ intros x l'. induction l' as [|y l' IH]; intros s Hx; [done |].
  rewrite Hcons. apply IH. by apply Hkeep. }
induction l as [|x l IH]; intros s; [done |].
constructor.
- rewrite Hcons. apply Hkeeps, Hself.
- rewrite Hcons. apply IH.
Qed.

End LoopsMore.

Lemma update_outcome_domain writable video_id field path s r s' t k :
  update_outcome writable video_id field path s (r, s', t) ->
  is_Some (metadata s' !! k) <-> is_Some (metadata s !! k).
Proof.
  inversion 1 as [Hno|f Hf Hnj|j Hj Hnobj|d0 Hd Hw0|d0 Hd Hw0]; subst;
    try done.
  destruct s; cbn in *. rewrite lookup_insert_is_Some.
  split.
  - intros [<-|[_ H']]; [by eexists | done].
  - intros H'. destruct (decide (video_id +:+ ".json" = k)); auto.
Qed.

Lemma transcribe_item_text_kept BASE_DIR writable model name s Y f :
  transcripts s !! (Y +:+ ".txt") = Some f ->
  transcripts (fs_of (transcribe_item BASE_DIR writable model name s))
    !! (Y +:+ ".txt") = Some f.
Proof.
  intros HY.
  destruct (decide (stem name = Y)) as [<-|Hne].
  - rewrite transcribe_item_skip; [done | by eexists].
  - rewrite transcribe_item_transcripts; [done | |].
    + intros Heq. by apply append_inj_l in Heq.
    + apply txt_not_json.
Qed.

Lemma transcribe_item_domain BASE_DIR writable model name s k :
  is_Some (metadata (fs_of (transcribe_item BASE_DIR writable model name s))
           !! k)
  <-> is_Some (metadata s !! k).
Proof.
  destruct (transcribe_item_outcome BASE_DIR writable model name s)
    as [| | | |segs r s' t _ _ _ _ Hupd]; try done.
  apply (update_outcome_domain _ _ _ _ _ _ _ _ k) in Hupd.
  cbn. rewrite Hupd. by destruct s.
Qed.

(** X4. A run of the Transcriber reads the audio directory and the summary
    directory without changing them, removes no transcript file,
    rewrites no transcript text file that was there, and neither creates
    nor removes a Metadata Record.  It ends normally when the model
    loads; when the model does not load it raises at once and has done
    nothing. *)
Theorem transcriber_leaves
  BASE_DIR writable (WhisperModel : result whisper) (s : fs) :
  audio (fs_of (transcriber_main BASE_DIR writable WhisperModel s)) = audio s
  /\ summaries (fs_of (transcriber_main BASE_DIR writable WhisperModel s))
     = summaries s
  /\ (forall k, is_Some (transcripts s !! k) ->
        is_Some (transcripts
                   (fs_of (transcriber_main BASE_DIR writable WhisperModel s))
                 !! k))
  /\ (forall Y f, transcripts s !! (Y +:+ ".txt") = Some f ->
        transcripts (fs_of (transcriber_main BASE_DIR writable WhisperModel s))
          !! (Y +:+ ".txt") = Some f)
  /\ (forall k,
        is_Some (metadata
                   (fs_of (transcriber_main BASE_DIR writable WhisperModel s))
                 !! k)
        <-> is_Some (metadata s !! k))
  /\ match WhisperModel with
     | Ok _ =>
         result_of (transcriber_main BASE_DIR writable WhisperModel s) = Ok tt
     | Raise e =>
         transcriber_main BASE_DIR writable WhisperModel s = (Raise e, s, [])
     end.
Proof.
  destruct WhisperModel as [model|e]; [| by repeat split].
  rewrite transcriber_main_loaded.
  set (I := fun s' : fs =>
    audio s' = audio s /\ summaries s' = summaries s
    /\ (forall k, is_Some (transcripts s !! k) -> is_Some (transcripts s' !! k))
    /\ (forall Y f, transcripts s !! (Y +:+ ".txt") = Some f ->
          transcripts s' !! (Y +:+ ".txt") = Some f)
    /\ (forall k, is_Some (metadata s' !! k) <-> is_Some (metadata s !! k))).
  destruct (for_each_inv (transcribe_item BASE_DIR writable model) I
              (fun _ => True) (audio_files s)) with (s := s)
    as (Hr & (Ha & Hsu & Hk & Ht & Hm) & _).
  - intros x s' _ (Ha & Hsu & Hk & Ht & Hm).
    split; [apply transcribe_item_returns |].
    split; [| by apply Forall_true].
    destruct (transcribe_item_others BASE_DIR writable model x s')
      as [Ha' Hsu'].
    unfold I. rewrite Ha', Hsu'.
    split; [done |]. split; [done |]. split; [| split].
    + intros k Hk'. by apply transcribe_item_keeps, Hk.
    + intros Y f HY. by apply transcribe_item_text_kept, Ht.
    + intros k. rewrite transcribe_item_domain. apply Hm.
  - unfold I. by repeat split.
  - do 5 (split; [done |]). exact Hr.
Qed.

(** A transcript text that is there stays as it is. *)
Lemma transcriber_leaves_witness :
  transcripts (fs_of (transcriber_main ex_base all_writable (Ok ex_model)
                        fs_text_only)) !! ("abc" +:+ ".txt")
  = Some (FText (text_of_string "hello world")).
Proof.
  destruct (transcriber_leaves ex_base all_writable (Ok ex_model) fs_text_only)
    as (_ & _ & _ & Hkept & _).
  apply Hkept. vm_compute. reflexivity.
Defined.





(** ** What a whole run achieves *)

(** X6. After a run of the Transcriber, every [.mp3] file whose
    transcription succeeds and whose text file can be written has its
    transcript text file. *)
Theorem transcriber_completes
  BASE_DIR writable (model : whisper) (s : fs) (name : string)
  (segments : list segment) :
  name ∈ audio_files s ->
  model (path_str BASE_DIR AUDIO_DIR name) (audio s !! name) = Ok segments ->
  writable TRANS_DIR (stem name +:+ ".txt") = true ->
  is_Some (transcripts
             (fs_of (transcriber_main BASE_DIR writable (Ok model) s))
           !! (stem name +:+ ".txt")).
Proof.
  intros Hin Hsegs Hw. rewrite transcriber_main_loaded.
  pose proof (for_each_settles (transcribe_item BASE_DIR writable model)
                (no_transcript BASE_DIR writable model) (audio_files s)
                (transcribe_item_returns BASE_DIR writable model)
                (no_transcript_after BASE_DIR writable model)
                (no_transcript_kept BASE_DIR writable model) s) as Hall.
  rewrite Forall_forall in Hall.
  destruct (Hall name Hin) as [Hex|[[e He]|Hw']]; [done | | congruence].
  rewrite transcribe_loop_audio in He. congruence.
Qed.

Lemma transcriber_completes_witness :
  is_Some (transcripts
             (fs_of (transcriber_main ex_base all_writable (Ok ex_model)
                       fs_fetched)) !! (stem "abc.mp3" +:+ ".txt")).
Proof.
  apply (transcriber_completes ex_base all_writable ex_model fs_fetched
           "abc.mp3" ex_segments).
  - vm_compute. repeat constructor.
  - vm_compute. reflexivity.
  - reflexivity.
Defined.



(** ** The files a stage visits *)

(** X8. The Transcriber visits the files of the audio directory whose name
    ends in [.mp3], the Summarizer the files of the transcript directory
    whose name ends in [.txt], each once and in the order of the names;
    the segment files the Transcriber writes beside its text files are
    never taken for transcripts. *)
Theorem stages_visit (s : fs) :
  (forall name,
     name ∈ audio_files s
     <-> is_Some (audio s !! name) /\ exists X, name = X +:+ ".mp3")
  /\ (forall name,
        name ∈ transcript_files s
        <-> is_Some (transcripts s !! name) /\ exists X, name = X +:+ ".txt")
  /\ NoDup (audio_files s)
  /\ NoDup (transcript_files s)
  /\ StronglySorted String.le (transcript_files s)
  /\ (forall X, X +:+ ".json" ∉ transcript_files s).
Proof.
  assert (Htxt : forall name,
    name ∈ transcript_files s
    <-> is_Some (transcripts s !! name) /\ exists X, name = X +:+ ".txt").
  { intros name. unfold transcript_files.
    rewrite sorted_elem, glob_elem.
    by rewrite (fnmatch_suffix ".txt" name eq_refl). }
  split; [| split; [exact Htxt | split; [| split; [| split]]]].
  - intros name. unfold audio_files.
    rewrite sorted_elem, glob_elem.
    by rewrite (fnmatch_suffix ".mp3" name eq_refl).
  - apply sorted_NoDup, glob_NoDup.
  - apply sorted_NoDup, glob_NoDup.
  - apply StronglySorted_merge_sort; apply _.
  - intros X [_ [Y HY]]%Htxt. symmetry in HY. by apply txt_not_json in HY.
Qed.

(** ** From one stage to the next *)






(** ** The Fetcher, item by item *)

Section FetcherMore.

Variable BASE_DIR : string.
Variable writable : dir -> string -> bool.
Variable ydl_download :
json -> gmap string file -> result unit * gmap string file.

Local Abbreviation item := (download_item BASE_DIR writable ydl_download).

Lemma download_item_failed results entry s e a' :
ydl_download (e_webpage_url entry) (audio s) = (Raise e, a') ->
item results (Some entry) s
= (Ok results, set_files AUDIO_DIR a' s,
   [Retrieved (e_webpage_url entry);
    DownloadFailed (e_webpage_url entry) e]).
Proof.
intros Hdl. unfold download_item, try_except, retrieve. unfold bind at 1.
unfold bind at 1. unfold ret at 1. by rewrite Hdl.
Qed.

Lemma download_item_stored results entry s a' :
ydl_download (e_webpage_url entry) (audio s) = (Ok tt, a') ->
writable META_DIR (e_id entry +:+ ".json") = true ->
item results (Some entry) s
= (Ok (results
         ++ [fetched_record BASE_DIR entry (located (e_id entry) a')]),
   set_files META_DIR
     (<[e_id entry +:+ ".json" :=
          FJson (JObj (fetched_record BASE_DIR entry
                         (located (e_id entry) a')))]> (metadata s))
     (set_files AUDIO_DIR a' s),
   [Retrieved (e_webpage_url entry);
    Wrote META_DIR (e_id entry +:+ ".json")]).
Proof.
intros Hdl Hw. unfold download_item, try_except, retrieve. unfold bind at 1.
unfold bind at 1. unfold ret at 1. rewrite Hdl. cbn.
rewrite (bind_ok _ _ _ _ _ _ (locate_audio_spec _ _)).
unfold write_file, bind, ret. cbn. by rewrite Hw.
Qed.

Lemma download_item_unwritable results entry s a' :
ydl_download (e_webpage_url entry) (audio s) = (Ok tt, a') ->
writable META_DIR (e_id entry +:+ ".json") = false ->
item results (Some entry) s
= (Raise OSError, set_files AUDIO_DIR a' s,
   [Retrieved (e_webpage_url entry)]).
Proof.
intros Hdl Hw. unfold download_item, try_except, retrieve. unfold bind at 1.
unfold bind at 1. unfold ret at 1. rewrite Hdl. cbn.
rewrite (bind_ok _ _ _ _ _ _ (locate_audio_spec _ _)).
unfold write_file, bind, ret. cbn. by rewrite Hw.
Qed.

End FetcherMore.

(** ** When the Fetcher fails *)

(** X10. An item that cannot be retrieved gets a warning and nothing else: no
    record is written and the results are as before, and the loop goes
    on.  A source that cannot be resolved ends the stage before anything
    is done.  A record that cannot be written ends the stage there: the
    items after it are not retrieved. *)
Theorem fetcher_failures
  BASE_DIR writable extract_info ydl_download (results : list dict)
  (item : entry) (rest : list (option entry)) (url : string) (s : fs) :
  (forall e a',
     ydl_download (e_webpage_url item) (audio s) = (Raise e, a') ->
     download_item BASE_DIR writable ydl_download results (Some item) s
     = (Ok results, set_files AUDIO_DIR a' s,
        [Retrieved (e_webpage_url item);
         DownloadFailed (e_webpage_url item) e]))
  /\ (forall e, extract_info url = Raise e ->
        download BASE_DIR writable extract_info ydl_download url s
        = (Raise e, s, []))
  /\ (forall a',
        ydl_download (e_webpage_url item) (audio s) = (Ok tt, a') ->
        writable META_DIR (e_id item +:+ ".json") = false ->
        fold_each (Some item :: rest) results
          (download_item BASE_DIR writable ydl_download) s
        = (Raise OSError, set_files AUDIO_DIR a' s,
           [Retrieved (e_webpage_url item)]))
  /\ fold_each (None :: rest) results
       (download_item BASE_DIR writable ydl_download) s
     = fold_each rest results
         (download_item BASE_DIR writable ydl_download) s.
Proof.
  split; [| split; [| split]].
  - intros e a'. apply download_item_failed.
  - intros e He. unfold download, bind, lift. by rewrite He.
  - intros a' Hdl Hw. cbn [fold_each]. apply bind_raise.
    by apply download_item_unwritable.
  - cbn [fold_each]. unfold bind, ret. cbn.
    by destruct (fold_each rest results _ s) as [[r s'] t].
Qed.

(** The second item of the example playlist cannot be retrieved. *)
Lemma fetcher_failures_witness :
  download_item ex_base all_writable ex_ydl_partial [] (Some ex_entry2)
    fs_empty
  = (Ok [], fs_empty,
     [Retrieved (e_webpage_url ex_entry2);
      DownloadFailed (e_webpage_url ex_entry2)
        (CollaboratorError "unavailable")]).
Proof.
  apply (proj1 (fetcher_failures ex_base all_writable ex_extract_list
                  ex_ydl_partial [] ex_entry2 [] ex_url fs_empty)
           (CollaboratorError "unavailable") ∅).
  vm_compute. reflexivity.
Defined.

(** ** Fetching an item again *)



(** ** What the Fetcher returns *)

Lemma download_resolved BASE_DIR writable extract_info ydl_download url i s :
  extract_info url = Ok i ->
  download BASE_DIR writable extract_info ydl_download url s
  = fold_each (entries_of i) []
      (download_item BASE_DIR writable ydl_download) s.
Proof.
  intros Hi. unfold download, bind, lift. rewrite Hi. unfold entries_of.
  by destruct (fold_each _ _ _ s) as [[r s'] t].
Qed.

Lemma download_loop_results BASE_DIR writable ydl_download l :
  forall acc s res s' t,
    fold_each l acc (download_item BASE_DIR writable ydl_download) s
    = (Ok res, s', t) ->
    exists written recs,
      written `sublist_of` omap id l
      /\ res = acc ++ recs
      /\ Forall2 (fun e meta => exists p, meta = fetched_record BASE_DIR e p)
           written recs
      /\ writes t = map (fun e => (META_DIR, e_id e +:+ ".json")) written.
Proof.
  induction l as [|x l IH]; intros acc s res s' t.
  - intros [= <- _ <-]. exists [], []. by rewrite app_nil_r.
  - cbn [fold_each]. unfold bind at 1.
    destruct (download_item BASE_DIR writable ydl_download acc x s)
      as [[[acc1|e1] s1] t1] eqn:Hitem; [| done].
    destruct (fold_each l acc1 _ s1) as [[r2 s2] t2] eqn:Hrest.
    intros [= -> -> <-].
    apply IH in Hrest as (written & recs & Hsub & -> & Hrecs & Hwr).
    unfold writes in *. rewrite omap_app, Hwr.
    destruct x as [en|]; cbn [omap id].
    2:{ injection Hitem as <- _ <-. exists written, recs. by repeat split. }
    destruct (ydl_download (e_webpage_url en) (audio s)) as [[[]|e] a'] eqn:Hdl.
    + destruct (writable META_DIR (e_id en +:+ ".json")) eqn:Hw.
      * rewrite (download_item_stored _ _ _ _ _ _ _ Hdl Hw) in Hitem.
        injection Hitem as <- _ <-.
        exists (en :: written),
          (fetched_record BASE_DIR en (located (e_id en) a') :: recs).
        rewrite <- app_assoc.
        split; [by apply sublist_skip |]. split; [done |].
        split; [| done]. constructor; [by eexists | done].
      * by rewrite (download_item_unwritable _ _ _ _ _ _ _ Hdl Hw) in Hitem.
    + rewrite (download_item_failed _ _ _ _ _ _ _ _ Hdl) in Hitem.
      injection Hitem as <- _ <-. exists written, recs.
      split; [by apply sublist_cons |]. by repeat split.
Qed.

(** X12. When [download] returns, its results are the records it wrote, in
    the order of the resolved items: one per item of a sub-sequence of
    the work list, each with the five fields in their order, so that the
    report of the command line finds its three keys in every one. *)
Theorem fetcher_results
  BASE_DIR writable extract_info ydl_download (url : string) (i : info)
  (res : list dict) (s s' : fs) (t : list event) :
  extract_info url = Ok i ->
  download BASE_DIR writable extract_info ydl_download url s = (Ok res, s', t) ->
  exists written,
    written `sublist_of` omap id (entries_of i)
    /\ Forall2 (fun e meta => exists p, meta = fetched_record BASE_DIR e p)
         written res
    /\ writes t = map (fun e => (META_DIR, e_id e +:+ ".json")) written
    /\ Forall (fun meta =>
         keys meta
         = ["video_id"; "title"; "webpage_url"; "duration"; "audio_path"]
         /\ is_Some (report_line meta)) res.
Proof.
  intros Hi Hrun. rewrite (download_resolved _ _ _ _ _ _ _ Hi) in Hrun.
  apply download_loop_results in Hrun as (written & recs & Hsub & -> & Hrecs & Hwr).
  exists written. split; [done |]. split; [done |]. split; [done |].
  cbn [app]. clear Hsub Hwr. induction Hrecs as [|e meta ? ? [p ->] _ IH];
    constructor; [| done].
  split; [done |]. unfold report_line, fetched_record. cbn. by destruct p.
Qed.

(** The example playlist: the first item is stored, the hole and the
    item that cannot be retrieved leave no record. *)
Lemma fetcher_results_witness :
  exists written,
    written `sublist_of`
      omap id (entries_of (Info ex_entry
                             (Some [Some ex_entry; None; Some ex_entry2])))
    /\ Forall2 (fun e meta => exists p, meta = fetched_record ex_base e p)
         written [fetched_record ex_base ex_entry (Some "abc.mp3")]
    /\ writes [Retrieved (e_webpage_url ex_entry);
               Wrote META_DIR "abc.json";
               Retrieved (e_webpage_url ex_entry2);
               DownloadFailed (e_webpage_url ex_entry2)
                 (CollaboratorError "unavailable")]
       = map (fun e => (META_DIR, e_id e +:+ ".json")) written
    /\ Forall (fun meta =>
         keys meta
         = ["video_id"; "title"; "webpage_url"; "duration"; "audio_path"]
         /\ is_Some (report_line meta))
         [fetched_record ex_base ex_entry (Some "abc.mp3")].
Proof.
  apply (fetcher_results ex_base all_writable ex_extract_list
           ex_ydl_partial ex_url
           (Info ex_entry (Some [Some ex_entry; None; Some ex_entry2]))
           _ fs_empty
           (snd (fst (download ex_base all_writable ex_extract_list
                        ex_ydl_partial ex_url fs_empty)))).
  - reflexivity.
  - vm_compute. reflexivity.
Defined.

(** ** The tokenizer data *)

(** X13. [ensure_nltk_resources] asks for a download only of a resource that
    is missing, in the order punkt, punkt_tab; with nothing missing it
    asks for none and leaves the data as they are.  When a download
    installs what it is asked for, both resources are there afterwards,
    nothing that was there is lost, and a second call asks for nothing. *)
Theorem nltk_resources_ensured
  (nltk_download : string -> gset string -> gset string)
  (installed : gset string) :
  installs nltk_download ->
  let r := ensure_nltk_resources nltk_download installed in
  installed ⊆ r.1
  /\ Forall (fun resource => "tokenizers/" +:+ resource ∈ r.1) required
  /\ r.2 `sublist_of` required
  /\ (forall resource,
        resource ∈ r.2 -> "tokenizers/" +:+ resource ∉ installed)
  /\ ("tokenizers/" +:+ "punkt" ∉ installed -> "punkt" ∈ r.2)
  /\ (Forall (fun resource => "tokenizers/" +:+ resource ∈ installed)
        required -> r = (installed, []))
  /\ ensure_nltk_resources nltk_download r.1 = (r.1, []).
Proof.
  intros Hdl.
  pose proof (Hdl "punkt" installed) as [Hsub1 Hin1].
  pose proof (Hdl "punkt_tab" installed) as [Hsub2 Hin2].
  pose proof (Hdl "punkt_tab" (nltk_download "punkt" installed))
    as [Hsub3 Hin3].
  cbv zeta. unfold ensure_nltk_resources, required, ensure_resource.
  cbn [foldl fst snd].
  destruct (decide ("tokenizers/" +:+ "punkt" ∈ installed)) as [Ha|Ha];
    cbn [fst snd];
    match goal with
    | |- context [decide (?x ∈ ?d)] =>
        destruct (decide (x ∈ d)) as [Hb|Hb]
    end; cbn [fst snd app].
  - rewrite !(decide_True _ _ Ha), !(decide_True _ _ Hb).
    split; [done |]. split; [by repeat constructor |].
    split; [apply sublist_nil_l |].
    split; [by intros ? ?%elem_of_nil |]. by repeat split.
  - assert ("tokenizers/" +:+ "punkt" ∈ nltk_download "punkt_tab" installed)
      as Hc by (by apply Hsub2).
    rewrite !(decide_True _ _ Hc), !(decide_True _ _ Hin2).
    split; [done |]. split; [by repeat constructor |].
    split; [apply sublist_cons, sublist_skip, sublist_nil |].
    split; [by intros ? ->%list_elem_of_singleton |].
    split; [done |]. split; [| done].
    by intros [_ [Hd _]%Forall_cons]%Forall_cons.
  - rewrite !(decide_True _ _ Hin1), !(decide_True _ _ Hb).
    split; [done |]. split; [by repeat constructor |].
    split; [apply sublist_skip, sublist_cons, sublist_nil |].
    split; [by intros ? ->%list_elem_of_singleton |].
    split; [intros _; by left |]. split; [| done].
    by intros [Hd _]%Forall_cons.
  - assert ("tokenizers/" +:+ "punkt" ∈
            nltk_download "punkt_tab" (nltk_download "punkt" installed))
      as Hc by (by apply Hsub3).
    assert ("tokenizers/" +:+ "punkt_tab" ∉ installed) as Hd
      by (intros Hd; apply Hb, Hsub1, Hd).
    rewrite !(decide_True _ _ Hc), !(decide_True _ _ Hin3).
    split; [by trans (nltk_download "punkt" installed) |].
    split; [by repeat constructor |].
    split; [done |].
    split; [intros ? [->| ->%list_elem_of_singleton]%elem_of_cons; done |].
    split; [intros _; by left |]. split; [| done].
    by intros [He _]%Forall_cons.
Qed.

(** A download that adds the resource it is asked for: with nothing
    installed both are fetched, in order. *)
Lemma nltk_resources_ensured_witness :
  let r := ensure_nltk_resources ex_nltk_download (∅ : gset string) in
  (∅ : gset string) ⊆ r.1
  /\ Forall (fun resource => "tokenizers/" +:+ resource ∈ r.1) required
  /\ r.2 `sublist_of` required
  /\ (forall resource, resource ∈ r.2 -> "tokenizers/" +:+ resource ∉ (∅ : gset string))
  /\ ("tokenizers/" +:+ "punkt" ∉ (∅ : gset string) -> "punkt" ∈ r.2)
  /\ (Forall (fun resource => "tokenizers/" +:+ resource ∈ (∅ : gset string))
        required -> r = ((∅ : gset string), []))
  /\ ensure_nltk_resources ex_nltk_download r.1 = (r.1, []).
Proof.
  apply (nltk_resources_ensured ex_nltk_download (∅ : gset string)).
  intros resource data. unfold ex_nltk_download. split; set_solver.
Defined.

(** ** Failures after the first write *)






(** ** The order of the fields of a record *)







(** ** What a whole run writes *)

Section LoopsOne.

Context {A : Type} `{EqDecision A} (body : A -> M unit).


End LoopsOne.






